(** * block-store: a fixed-capacity block device and its allocation bitmap

    Shallow embedding of [src/block_store.c].  A store is the array
    [bs[0 .. BLOCK_COUNT-1]] of [void*]: the first [BLOCK_COUNT - 1] entries
    point to [BLOCK_SIZE]-byte buffers, the last one holds the handle of the
    allocation bitmap.  The functions are written in state-passing style: a
    [block_store_t*] that may be null is an [option block_store_t], and every
    function that mutates the store returns the store it leaves behind.

    [size_t] values are integers in [0, 2^64); the two places where the source
    subtracts are written with their wrap-around. *)

From Stdlib Require Import ZArith Lia ZifyBool List Bool.
From Stdlib.Strings Require Import Byte.
From stdpp Require Import base tactics option list gmap.

Local Open Scope Z_scope.

(** ** Constants of block_store.c *)

Definition BLOCK_SIZE : Z := 256.
Definition BLOCK_COUNT : Z := 256.
Definition SIZE_MAX : Z := 2 ^ 64 - 1.

(** Unsigned arithmetic on [size_t] is modulo [SIZE_MAX + 1]. *)
Definition size_t_wrap (z : Z) : Z := z mod (SIZE_MAX + 1).

(** ** The bitmap library (bitmap.h / bitmap.c) *)

Module Bitmap.

(** Modelled from the spec: bitmap.c is not among the sources.  The data model
    of the specification gives a bitmap a fixed [bit_count] and an owned
    byte buffer of [ceil(bit_count / 8)] bytes; bit [i] lives in byte [i / 8]
    at position [i mod 8]. *)
Record bitmap_t : Type := mk_bitmap {
  bit_count : Z;
  data : list Z
}.

Definition byte_index (i : Z) : nat := Z.to_nat (i / 8).
Definition bit_mask (i : Z) : Z := Z.shiftl 1 (i mod 8).

(** Modelled from the spec: "bit index i is valid iff 0 <= i < bit_count". *)
Definition valid_index (bm : bitmap_t) (i : Z) : bool :=
  (0 <=? i) && (i <? bit_count bm).

(** Modelled from the spec: bitmap_create of bitmap.c, "new Bitmap, all bits
    clear", a null result when [bit_count] is 0. *)
Definition bitmap_create (n : Z) : option bitmap_t :=
  if n <=? 0 then None
  else Some {| bit_count := n; data := replicate (Z.to_nat ((n + 7) / 8)) 0 |}.

(** Modelled from the spec: bitmap_set of bitmap.c, "marks the bit set"; an
    index outside the range is rejected and nothing is written. *)
Definition bitmap_set (bm : bitmap_t) (i : Z) : bitmap_t :=
  if valid_index bm i
  then {| bit_count := bit_count bm;
          data := alter (fun b => Z.lor b (bit_mask i)) (byte_index i) (data bm) |}
  else bm.

(** Modelled from the spec: bitmap_reset of bitmap.c, "marks the bit clear;
    symmetric bounds contract to set". *)
Definition bitmap_reset (bm : bitmap_t) (i : Z) : bitmap_t :=
  if valid_index bm i
  then {| bit_count := bit_count bm;
          data := alter (fun b => Z.ldiff b (bit_mask i)) (byte_index i) (data bm) |}
  else bm.

(** Modelled from the spec: bitmap_test of bitmap.c, "true iff set;
    out-of-range index returns a defined sentinel (e.g., false)". *)
Definition bitmap_test (bm : bitmap_t) (i : Z) : bool :=
  if valid_index bm i
  then match data bm !! byte_index i with
       | Some b => Z.testbit b (i mod 8)
       | None => false
       end
  else false.

(** Scan of [n] consecutive indices starting at [i]. *)
Fixpoint ffz_from (bm : bitmap_t) (i : Z) (n : nat) : Z :=
  match n with
  | O => SIZE_MAX
  | S n' => if bitmap_test bm i then ffz_from bm (i + 1) n' else i
  end.

(** Modelled from the spec: bitmap_ffz of bitmap.c, "index of the first clear
    bit scanning from index 0, or a sentinel 'not found' value if all bits
    are set"; the sentinel is the maximum unsigned value, which is what
    block_store_allocate compares the result with. *)
Definition bitmap_ffz (bm : bitmap_t) : Z :=
  ffz_from bm 0 (Z.to_nat (bit_count bm)).

Fixpoint count_from (bm : bitmap_t) (i : Z) (n : nat) : Z :=
  match n with
  | O => 0
  | S n' => (if bitmap_test bm i then 1 else 0) + count_from bm (i + 1) n'
  end.

(** Modelled from the spec: bitmap_total_set of bitmap.c, "count of set bits
    across the whole range". *)
Definition bitmap_total_set (bm : bitmap_t) : Z :=
  count_from bm 0 (Z.to_nat (bit_count bm)).

(** The buffer has the size the data model prescribes. *)
Definition wf_bitmap (bm : bitmap_t) : Prop :=
  0 < bit_count bm /\
  Z.of_nat (length (data bm)) = (bit_count bm + 7) / 8.

End Bitmap.

Import Bitmap.

(** ** The block store *)

Definition block : Type := list byte.

(** [typedef struct block_store { void* block; } block_store_t], used as an
    array of [BLOCK_COUNT] entries: [blocks] are [bs[0 .. BLOCK_COUNT-2].block],
    [bitmap] is the object behind [bs[BLOCK_COUNT-1].block]. *)
Record block_store_t : Type := mk_store {
  blocks : list block;
  bitmap : bitmap_t
}.

(** What [bs[i].block] points to: a data block for [i < BLOCK_COUNT - 1], the
    bitmap handle for [i = BLOCK_COUNT - 1]. *)
Inductive slot : Type :=
| DataBlock (b : block)
| BitmapHandle (bm : bitmap_t).

Definition bs_slot (s : block_store_t) (i : Z) : option slot :=
  if i =? BLOCK_COUNT - 1 then Some (BitmapHandle (bitmap s))
  else DataBlock <$> blocks s !! Z.to_nat i.

(** The array has [BLOCK_COUNT - 1] data blocks and the bitmap was made by
    [bitmap_create(BLOCK_COUNT)]. *)
Definition wf_store (s : block_store_t) : Prop :=
  Z.of_nat (length (blocks s)) = BLOCK_COUNT - 1 /\
  bit_count (bitmap s) = BLOCK_COUNT /\
  Z.of_nat (length (data (bitmap s))) = (BLOCK_COUNT + 7) / 8.

(** [memcpy(dst, src, n)]: the first [n] bytes of [dst] become those of [src]. *)
Definition memcpy (dst src : list byte) (n : Z) : list byte :=
  take (Z.to_nat n) src ++ drop (Z.to_nat n) dst.

(** block_store_create.  [malloc] hands out buffers with indeterminate
    contents: [heap i] is what the [i]-th block holds when it is obtained.
    The source does not test what [malloc] returns; allocation is taken to
    succeed.  [bitmap_create] is called with [BLOCK_COUNT], which is not 0,
    so the handle it returns is not null. *)
Definition block_store_create (heap : nat -> block) : option block_store_t :=
  match bitmap_create BLOCK_COUNT with
  | Some bm =>
      Some {| blocks := map heap (seq 0 (Z.to_nat (BLOCK_COUNT - 1)));
              bitmap := bitmap_set bm (BLOCK_COUNT - 1) |}
  | None => None
  end.

(** block_store_allocate *)
Definition block_store_allocate (bs : option block_store_t)
  : Z * option block_store_t :=
  match bs with
  | None => (SIZE_MAX, None)
  | Some s =>
      let blk := bitmap_ffz (bitmap s) in
      if blk =? SIZE_MAX then (SIZE_MAX, Some s)
      else (blk, Some {| blocks := blocks s; bitmap := bitmap_set (bitmap s) blk |})
  end.

(** block_store_request *)
Definition block_store_request (bs : option block_store_t) (block_id : Z)
  : bool * option block_store_t :=
  match bs with
  | None => (false, None)
  | Some s =>
      if BLOCK_COUNT - 1 <? block_id then (false, Some s)
      else if negb (bitmap_test (bitmap s) block_id)
           then (true, Some {| blocks := blocks s;
                               bitmap := bitmap_set (bitmap s) block_id |})
           else (false, Some s)
  end.

(** block_store_release *)
Definition block_store_release (bs : option block_store_t) (block_id : Z)
  : option block_store_t :=
  match bs with
  | None => None
  | Some s => Some {| blocks := blocks s;
                      bitmap := bitmap_reset (bitmap s) block_id |}
  end.

(** block_store_get_used_blocks: [used_blocks - 1] is an unsigned
    subtraction. *)
Definition block_store_get_used_blocks (bs : option block_store_t) : Z :=
  match bs with
  | None => SIZE_MAX
  | Some s => size_t_wrap (bitmap_total_set (bitmap s) - 1)
  end.

(** block_store_get_free_blocks *)
Definition block_store_get_free_blocks (bs : option block_store_t) : Z :=
  match bs with
  | None => SIZE_MAX
  | Some s => size_t_wrap (BLOCK_COUNT - bitmap_total_set (bitmap s))
  end.

(** block_store_get_total_blocks *)
Definition block_store_get_total_blocks : Z := BLOCK_COUNT - 1.

(** Outcome of block_store_read: the value returned, the store and the
    caller's buffer afterwards.  [ReadBitmapObject] is the copy whose source
    is [bs[BLOCK_COUNT-1].block]: the buffer receives [BLOCK_SIZE] bytes found
    at the address of the bitmap object, which are no block's data. *)
Inductive read_result : Type :=
| ReadDone (ret : Z) (bs : option block_store_t) (buffer : option (list byte))
| ReadBitmapObject (ret : Z) (bs : option block_store_t) (bm : bitmap_t).

Definition read_ret (r : read_result) : Z :=
  match r with ReadDone n _ _ | ReadBitmapObject n _ _ => n end.

Definition read_store (r : read_result) : option block_store_t :=
  match r with ReadDone _ bs _ | ReadBitmapObject _ bs _ => bs end.

(** block_store_read.  The last branch is an array with fewer than
    [BLOCK_COUNT - 1] data blocks, which [wf_store] excludes: no call builds
    one. *)
Definition block_store_read (bs : option block_store_t) (block_id : Z)
    (buffer : option (list byte)) : read_result :=
  match bs, buffer with
  | Some s, Some buf =>
      if BLOCK_COUNT - 1 <? block_id then ReadDone 0 bs buffer
      else match bs_slot s block_id with
           | Some (DataBlock b) =>
               ReadDone BLOCK_SIZE bs (Some (memcpy buf b BLOCK_SIZE))
           | Some (BitmapHandle bm) => ReadBitmapObject BLOCK_SIZE bs bm
           | None => ReadDone 0 bs buffer
           end
  | _, _ => ReadDone 0 bs buffer
  end.

(** Outcome of block_store_write.  [WriteBitmapObject] is the copy whose
    destination is [bs[BLOCK_COUNT-1].block]: [BLOCK_SIZE] bytes of the
    buffer are stored over the bitmap object, after which the memory behind
    the handle is no bitmap any more. *)
Inductive write_result : Type :=
| WriteDone (ret : Z) (bs : option block_store_t)
| WriteBitmapObject (ret : Z) (blks : list block) (overwritten : bitmap_t)
    (bytes : list byte).

Definition write_ret (r : write_result) : Z :=
  match r with WriteDone n _ | WriteBitmapObject n _ _ _ => n end.

(** block_store_write, with the same branch for an array that is too
    short. *)
Definition block_store_write (bs : option block_store_t) (block_id : Z)
    (buffer : option (list byte)) : write_result :=
  match bs, buffer with
  | Some s, Some buf =>
      if BLOCK_COUNT - 1 <? block_id then WriteDone 0 bs
      else match bs_slot s block_id with
           | Some (DataBlock b) =>
               WriteDone BLOCK_SIZE
                 (Some {| blocks := <[Z.to_nat block_id := memcpy b buf BLOCK_SIZE]> (blocks s);
                          bitmap := bitmap s |})
           | Some (BitmapHandle bm) =>
               WriteBitmapObject BLOCK_SIZE (blocks s) bm (take (Z.to_nat BLOCK_SIZE) buf)
           | None => WriteDone 0 bs
           end
  | _, _ => WriteDone 0 bs
  end.

(** ** Ownership of memory: block_store_create and block_store_destroy *)

Module Memory.

(** The allocator's state is the set of addresses that are live.  [malloc]
    returns an address that is not live and makes it live; [free] of a live
    address ends its life, and [free] of any other address has no defined
    outcome ([None]). *)
Definition malloc (h : gset nat) : nat * gset nat :=
  let a := fresh h in (a, {[a]} ∪ h).

Definition free (a : nat) (h : gset nat) : option (gset nat) :=
  if decide (a ∈ h) then Some (h ∖ {[a]}) else None.

(** The pointers of a store: the address of the array [bs] itself and the
    value of [bs[i].block] for each of its [BLOCK_COUNT] entries. *)
Record store_ptrs : Type := mk_ptrs {
  array_addr : nat;
  slot_addrs : list nat
}.

(** The loop [for (i = 0; i < BLOCK_COUNT - 1; i++) bs[i].block = malloc(BLOCK_SIZE)]. *)
Fixpoint malloc_blocks (n : nat) (h : gset nat) : list nat * gset nat :=
  match n with
  | O => ([], h)
  | S n' =>
      let '(a, h1) := malloc h in
      let '(l, h2) := malloc_blocks n' h1 in
      (a :: l, h2)
  end.

(** Modelled from the spec: bitmap_create and bitmap_destroy of bitmap.c,
    seen from the allocator: the bitmap is one owned object, obtained at
    creation and given back by "destroy() - releases owned storage". *)
Definition bitmap_create_mem (h : gset nat) : nat * gset nat := malloc h.
Definition bitmap_destroy_mem (a : nat) (h : gset nat) : option (gset nat) := free a h.

(** block_store_create, as the allocator sees it: the array, then the
    [BLOCK_COUNT - 1] blocks, then the bitmap. *)
Definition block_store_create_mem (h : gset nat) : store_ptrs * gset nat :=
  let '(arr, h1) := malloc h in
  let '(blks, h2) := malloc_blocks (Z.to_nat (BLOCK_COUNT - 1)) h1 in
  let '(bm, h3) := bitmap_create_mem h2 in
  ({| array_addr := arr; slot_addrs := blks ++ [bm] |}, h3).

(** The loop [for (i = 0; i < BLOCK_COUNT - 1; i++) free(bs[i].block)]. *)
Fixpoint free_blocks (l : list nat) (h : gset nat) : option (gset nat) :=
  match l with
  | [] => Some h
  | a :: l' =>
      match free a h with
      | Some h1 => free_blocks l' h1
      | None => None
      end
  end.

(** block_store_destroy: nothing for a null store; else the bitmap, the
    first [BLOCK_COUNT - 1] blocks and the array are given back, in this
    order. *)
Definition block_store_destroy (bs : option store_ptrs) (h : gset nat)
  : option (gset nat) :=
  match bs with
  | None => Some h
  | Some p =>
      match slot_addrs p !! Z.to_nat (BLOCK_COUNT - 1) with
      | Some bm =>
          match bitmap_destroy_mem bm h with
          | Some h1 =>
              match free_blocks (take (Z.to_nat (BLOCK_COUNT - 1)) (slot_addrs p)) h1 with
              | Some h2 => free (array_addr p) h2
              | None => None
              end
          | None => None
          end
      | None => None
      end
  end.

End Memory.

(** ** Repeated allocation *)

(** [n] calls of block_store_allocate in a row: the ids returned, and the
    store left by the last call. *)
Fixpoint allocate_many (n : nat) (bs : option block_store_t)
  : list Z * option block_store_t :=
  match n with
  | O => ([], bs)
  | S n' =>
      let '(x, bs1) := block_store_allocate bs in
      let '(xs, bs2) := allocate_many n' bs1 in
      (x :: xs, bs2)
  end.

(** ** Facts about the bitmap *)

Section BitmapFacts.

Implicit Types (bm : bitmap_t) (i j : Z).

Lemma valid_index_spec bm i :
  valid_index bm i = true <-> 0 <= i < bit_count bm.
Proof. unfold valid_index. rewrite andb_true_iff, Z.leb_le, Z.ltb_lt. tauto. Qed.

Lemma valid_index_false bm i :
  valid_index bm i = false <-> ~ (0 <= i < bit_count bm).
Proof. rewrite <- valid_index_spec. destruct (valid_index bm i); intuition congruence. Qed.

Lemma testbit_bit_mask i k :
  0 <= k -> Z.testbit (bit_mask i) k = (i mod 8 =? k).
Proof.
  intros Hk. unfold bit_mask.
  assert (0 <= i mod 8 < 8) by (apply Z.mod_pos_bound; lia).
  rewrite Z.shiftl_1_l. apply Z.pow2_bits_eqb. lia.
Qed.

Lemma same_byte_other_bit i j :
  0 <= i -> 0 <= j -> i <> j -> byte_index i = byte_index j -> i mod 8 <> j mod 8.
Proof.
  unfold byte_index. intros Hi Hj Hne Hb Hm.
  assert (i / 8 = j / 8).
  { apply Z2Nat.inj; auto; apply Z.div_pos; lia. }
  pose proof (Z.div_mod i 8). pose proof (Z.div_mod j 8). lia.
Qed.

Lemma byte_index_lt bm i :
  wf_bitmap bm -> 0 <= i < bit_count bm -> (byte_index i < length (data bm))%nat.
Proof.
  intros [Hpos Hlen] Hi. unfold byte_index.
  apply Nat2Z.inj_lt. rewrite Hlen, Z2Nat.id by (apply Z.div_pos; lia).
  apply Z.div_lt_upper_bound; [lia|].
  pose proof (Z.div_mod (bit_count bm + 7) 8).
  pose proof (Z.mod_pos_bound (bit_count bm + 7) 8). lia.
Qed.

Lemma bit_count_set bm i : bit_count (bitmap_set bm i) = bit_count bm.
Proof. unfold bitmap_set. by destruct (valid_index bm i). Qed.

Lemma bit_count_reset bm i : bit_count (bitmap_reset bm i) = bit_count bm.
Proof. unfold bitmap_reset. by destruct (valid_index bm i). Qed.

Lemma data_length_set bm i : length (data (bitmap_set bm i)) = length (data bm).
Proof.
  unfold bitmap_set. destruct (valid_index bm i); simpl; [apply length_alter | done].
Qed.

Lemma data_length_reset bm i : length (data (bitmap_reset bm i)) = length (data bm).
Proof.
  unfold bitmap_reset. destruct (valid_index bm i); simpl; [apply length_alter | done].
Qed.

Lemma wf_bitmap_set bm i : wf_bitmap bm -> wf_bitmap (bitmap_set bm i).
Proof. unfold wf_bitmap. rewrite bit_count_set, data_length_set. tauto. Qed.

Lemma wf_bitmap_reset bm i : wf_bitmap bm -> wf_bitmap (bitmap_reset bm i).
Proof. unfold wf_bitmap. rewrite bit_count_reset, data_length_reset. tauto. Qed.

(** A bit that was set reads as set. *)
Lemma test_set_eq bm i :
  wf_bitmap bm -> 0 <= i < bit_count bm -> bitmap_test (bitmap_set bm i) i = true.
Proof.
  intros Hwf Hi. unfold bitmap_test.
  assert (Hv : valid_index (bitmap_set bm i) i = true).
  { apply valid_index_spec. by rewrite bit_count_set. }
  rewrite Hv. unfold bitmap_set.
  apply valid_index_spec in Hi as Hv'. rewrite Hv'. simpl.
  destruct (lookup_lt_is_Some_2 (data bm) (byte_index i)) as [b Hb].
  { by apply byte_index_lt. }
  rewrite list_lookup_alter_eq, Hb. simpl.
  assert (0 <= i mod 8 < 8) by (apply Z.mod_pos_bound; lia).
  rewrite Z.lor_spec, testbit_bit_mask, Z.eqb_refl by lia.
  apply orb_true_r.
Qed.

(** Setting a bit leaves every other bit as it was. *)
Lemma test_set_ne bm i j :
  i <> j -> bitmap_test (bitmap_set bm i) j = bitmap_test bm j.
Proof.
  intros Hne. unfold bitmap_test, bitmap_set.
  destruct (valid_index bm i) eqn:Hi; [|done].
  unfold valid_index in *. simpl.
  destruct ((0 <=? j) && (j <? bit_count bm)) eqn:Hj; [|done].
  apply andb_true_iff in Hi as [Hi0 _]. apply andb_true_iff in Hj as [Hj0 _].
  apply Z.leb_le in Hi0, Hj0.
  destruct (decide (byte_index i = byte_index j)) as [Heq|Hb].
  - rewrite <- Heq, list_lookup_alter_eq.
    destruct (data bm !! byte_index i) as [b|]; simpl; [|done].
    assert (0 <= j mod 8 < 8) by (apply Z.mod_pos_bound; lia).
    rewrite Z.lor_spec, testbit_bit_mask by lia.
    pose proof (same_byte_other_bit i j Hi0 Hj0 Hne Heq) as Hm.
    apply Z.eqb_neq in Hm. rewrite Hm. apply orb_false_r.
  - by rewrite list_lookup_alter_ne.
Qed.

(** A bit that was reset reads as clear. *)
Lemma test_reset_eq bm i : bitmap_test (bitmap_reset bm i) i = false.
Proof.
  unfold bitmap_test, bitmap_reset.
  destruct (valid_index bm i) eqn:Hi.
  - unfold valid_index in *. simpl. rewrite Hi, list_lookup_alter_eq.
    destruct (data bm !! byte_index i) as [b|]; simpl; [|done].
    apply andb_true_iff in Hi as [Hi0 _]. apply Z.leb_le in Hi0.
    assert (0 <= i mod 8 < 8) by (apply Z.mod_pos_bound; lia).
    rewrite Z.ldiff_spec, testbit_bit_mask, Z.eqb_refl by lia.
    apply andb_false_r.
  - by rewrite Hi.
Qed.

(** Resetting a bit leaves every other bit as it was. *)
Lemma test_reset_ne bm i j :
  i <> j -> bitmap_test (bitmap_reset bm i) j = bitmap_test bm j.
Proof.
  intros Hne. unfold bitmap_test, bitmap_reset.
  destruct (valid_index bm i) eqn:Hi; [|done].
  unfold valid_index in *. simpl.
  destruct ((0 <=? j) && (j <? bit_count bm)) eqn:Hj; [|done].
  apply andb_true_iff in Hi as [Hi0 _]. apply andb_true_iff in Hj as [Hj0 _].
  apply Z.leb_le in Hi0, Hj0.
  destruct (decide (byte_index i = byte_index j)) as [Heq|Hb].
  - rewrite <- Heq, list_lookup_alter_eq.
    destruct (data bm !! byte_index i) as [b|]; simpl; [|done].
    assert (0 <= j mod 8 < 8) by (apply Z.mod_pos_bound; lia).
    rewrite Z.ldiff_spec, testbit_bit_mask by lia.
    pose proof (same_byte_other_bit i j Hi0 Hj0 Hne Heq) as Hm.
    apply Z.eqb_neq in Hm. rewrite Hm. apply andb_true_r.
  - by rewrite list_lookup_alter_ne.
Qed.

Lemma ldiff_twice b m : Z.ldiff (Z.ldiff b m) m = Z.ldiff b m.
Proof.
  apply Z.bits_inj'. intros n Hn. rewrite !Z.ldiff_spec.
  destruct (Z.testbit b n), (Z.testbit m n); reflexivity.
Qed.

(** Resetting the same bit a second time changes nothing. *)
Lemma reset_reset bm i :
  bitmap_reset (bitmap_reset bm i) i = bitmap_reset bm i.
Proof.
  unfold bitmap_reset at 1.
  destruct (valid_index (bitmap_reset bm i) i) eqn:Hv; [|done].
  unfold bitmap_reset in *.
  destruct (valid_index bm i) eqn:Hi; simpl in *; [|congruence].
  f_equal. rewrite list_alter_alter_eq.
  apply list_alter_ext; [|done]. intros b _. simpl. apply ldiff_twice.
Qed.

(** Resetting a bit that is clear changes nothing. *)
Lemma reset_clear_id bm i :
  bitmap_test bm i = false -> bitmap_reset bm i = bm.
Proof.
  unfold bitmap_test, bitmap_reset. destruct (valid_index bm i) eqn:Hi; [|done].
  intros Ht. destruct bm as [n d]. simpl in *. f_equal.
  apply andb_true_iff in Hi as [Hi0 _]. apply Z.leb_le in Hi0.
  assert (0 <= i mod 8 < 8) by (apply Z.mod_pos_bound; lia).
  apply list_eq. intros k.
  destruct (decide (k = byte_index i)) as [->|Hk].
  - rewrite list_lookup_alter_eq.
    destruct (d !! byte_index i) as [b|]; simpl; [|done].
    f_equal. apply Z.bits_inj'. intros n' Hn'.
    rewrite Z.ldiff_spec, testbit_bit_mask by lia.
    destruct (i mod 8 =? n') eqn:E.
    + apply Z.eqb_eq in E. subst n'. rewrite Ht. reflexivity.
    + apply andb_true_r.
  - by rewrite list_lookup_alter_ne.
Qed.

(** A new bitmap has every bit clear, and the buffer size of the data model. *)
Lemma test_create n bm k :
  bitmap_create n = Some bm -> bitmap_test bm k = false.
Proof.
  unfold bitmap_create. destruct (n <=? 0); [discriminate|].
  intros [= <-]. unfold bitmap_test. cbn [data].
  destruct (valid_index _ k); [|done].
  destruct (replicate (Z.to_nat ((n + 7) / 8)) 0 !! byte_index k) as [b|] eqn:Hb; [|done].
  apply lookup_replicate in Hb as [-> _]. apply Z.testbit_0_l.
Qed.

Lemma wf_bitmap_create n bm :
  bitmap_create n = Some bm -> wf_bitmap bm /\ bit_count bm = n.
Proof.
  unfold bitmap_create. destruct (n <=? 0) eqn:Hn; [discriminate|].
  intros [= <-]. apply Z.leb_gt in Hn. unfold wf_bitmap. cbn [bit_count data].
  rewrite length_replicate, Z2Nat.id by (apply Z.div_pos; lia). auto.
Qed.

End BitmapFacts.

(** ** The scan for the first clear bit and the count of set bits *)

Section Scan.

Implicit Types (bm : bitmap_t) (i j : Z) (n : nat).

Lemma ffz_from_all_set bm n : forall i,
  (forall k, i <= k < i + Z.of_nat n -> bitmap_test bm k = true) ->
  ffz_from bm i n = SIZE_MAX.
Proof.
  induction n as [|n IH]; intros i Hall; simpl; [reflexivity|].
  rewrite Hall by lia. apply IH. intros k Hk. apply Hall. lia.
Qed.

Lemma ffz_from_first_clear bm n : forall i j,
  i <= j < i + Z.of_nat n ->
  bitmap_test bm j = false ->
  i <= ffz_from bm i n <= j /\
  bitmap_test bm (ffz_from bm i n) = false /\
  (forall k, i <= k < ffz_from bm i n -> bitmap_test bm k = true).
Proof.
  induction n as [|n IH]; intros i j Hj Hclear; simpl; [lia|].
  destruct (bitmap_test bm i) eqn:Hi.
  - assert (i <> j) by congruence.
    destruct (IH (i + 1) j) as (Hr & Hc & Hlow); [lia | done |].
    split; [lia|]. split; [done|].
    intros k Hk. destruct (decide (k = i)) as [->|]; [done|]. apply Hlow. lia.
  - split; [lia|]. split; [done|]. intros k Hk. lia.
Qed.

Lemma count_from_bounds bm n : forall i,
  0 <= count_from bm i n <= Z.of_nat n.
Proof.
  induction n as [|n IH]; intros i; simpl; [lia|].
  specialize (IH (i + 1)). destruct (bitmap_test bm i); lia.
Qed.

Lemma count_from_pos bm n : forall i j,
  i <= j < i + Z.of_nat n -> bitmap_test bm j = true -> 1 <= count_from bm i n.
Proof.
  induction n as [|n IH]; intros i j Hj Hset; simpl; [lia|].
  pose proof (count_from_bounds bm n (i + 1)).
  destruct (decide (i = j)) as [->|Hne].
  - rewrite Hset. lia.
  - assert (1 <= count_from bm (i + 1) n) by (apply (IH (i + 1) j); [lia | done]).
    destruct (bitmap_test bm i); lia.
Qed.

Lemma count_from_all_clear bm n : forall i,
  (forall k, i <= k < i + Z.of_nat n -> bitmap_test bm k = false) ->
  count_from bm i n = 0.
Proof.
  induction n as [|n IH]; intros i Hall; simpl; [reflexivity|].
  rewrite Hall by lia. rewrite IH; [lia|]. intros k Hk. apply Hall. lia.
Qed.

Lemma count_from_ext bm bm' n : forall i,
  (forall k, i <= k < i + Z.of_nat n -> bitmap_test bm' k = bitmap_test bm k) ->
  count_from bm' i n = count_from bm i n.
Proof.
  induction n as [|n IH]; intros i Hsame; simpl; [reflexivity|].
  rewrite Hsame by lia. f_equal. apply IH. intros k Hk. apply Hsame. lia.
Qed.

(** The count when exactly the bit [j] of the scanned range is set. *)
Lemma count_from_single bm n : forall i j,
  i <= j < i + Z.of_nat n ->
  bitmap_test bm j = true ->
  (forall k, k <> j -> bitmap_test bm k = false) ->
  count_from bm i n = 1.
Proof.
  induction n as [|n IH]; intros i j Hj Hset Hothers; simpl; [lia|].
  destruct (decide (i = j)) as [->|Hne].
  - rewrite Hset, count_from_all_clear; [lia|].
    intros k Hk. apply Hothers. lia.
  - rewrite (Hothers i Hne). rewrite (IH (i + 1) j); [lia | lia | done | done].
Qed.

(** A full count means that every bit of the range is set. *)
Lemma count_from_full bm n : forall i,
  count_from bm i n = Z.of_nat n ->
  forall k, i <= k < i + Z.of_nat n -> bitmap_test bm k = true.
Proof.
  induction n as [|n IH]; intros i Hfull k Hk; simpl in Hfull; [lia|].
  pose proof (count_from_bounds bm n (i + 1)) as Hb.
  destruct (bitmap_test bm i) eqn:Hi; [|lia].
  destruct (decide (k = i)) as [->|Hne]; [done|].
  apply (IH (i + 1)); lia.
Qed.

Lemma total_set_bounds bm :
  0 <= bitmap_total_set bm <= Z.max 0 (bit_count bm).
Proof.
  unfold bitmap_total_set.
  pose proof (count_from_bounds bm (Z.to_nat (bit_count bm)) 0). lia.
Qed.

Lemma total_set_pos bm j :
  bitmap_test bm j = true -> 1 <= bitmap_total_set bm.
Proof.
  intros Hset. unfold bitmap_total_set.
  assert (Hv : valid_index bm j = true).
  { unfold bitmap_test in Hset. by destruct (valid_index bm j). }
  apply valid_index_spec in Hv.
  apply (count_from_pos bm _ 0 j); [lia | done].
Qed.

(** When no bit is clear the scan reports "not found". *)
Lemma ffz_full bm :
  (forall k, 0 <= k < bit_count bm -> bitmap_test bm k = true) ->
  bitmap_ffz bm = SIZE_MAX.
Proof.
  intros Hall. apply ffz_from_all_set. intros k Hk. apply Hall. lia.
Qed.

(** Otherwise it reports the lowest clear index. *)
Lemma ffz_lowest bm j :
  0 <= j < bit_count bm ->
  bitmap_test bm j = false ->
  0 <= bitmap_ffz bm <= j /\
  bitmap_test bm (bitmap_ffz bm) = false /\
  (forall k, 0 <= k < bitmap_ffz bm -> bitmap_test bm k = true).
Proof.
  intros Hj Hclear. apply ffz_from_first_clear; [lia | done].
Qed.

End Scan.

(** ** Facts about the store *)

Section StoreFacts.

Implicit Types (s : block_store_t) (bs : option block_store_t) (id : Z).

Lemma wf_store_bitmap s : wf_store s -> wf_bitmap (bitmap s).
Proof.
  intros (_ & Hn & Hlen). unfold wf_bitmap. rewrite Hn, Hlen.
  unfold BLOCK_COUNT. lia.
Qed.

Lemma SIZE_MAX_big : BLOCK_COUNT < SIZE_MAX.
Proof. reflexivity. Qed.

Lemma wf_store_with_set s i :
  wf_store s -> wf_store {| blocks := blocks s; bitmap := bitmap_set (bitmap s) i |}.
Proof.
  unfold wf_store. simpl. rewrite bit_count_set, data_length_set. tauto.
Qed.

Lemma wf_store_with_reset s i :
  wf_store s -> wf_store {| blocks := blocks s; bitmap := bitmap_reset (bitmap s) i |}.
Proof.
  unfold wf_store. simpl. rewrite bit_count_reset, data_length_reset. tauto.
Qed.

(** What block_store_create builds (whatever the blocks hold at first). *)
Lemma create_returns heap :
  exists s, block_store_create heap = Some s /\ wf_store s /\
            bitmap_test (bitmap s) (BLOCK_COUNT - 1) = true /\
            (forall k, k <> BLOCK_COUNT - 1 -> bitmap_test (bitmap s) k = false).
Proof.
  unfold block_store_create.
  destruct (bitmap_create BLOCK_COUNT) as [bm|] eqn:Hbm; [|discriminate Hbm].
  eexists. split; [reflexivity|].
  split; [|split].
  - destruct (wf_bitmap_create _ _ Hbm) as [[_ Hlen] Hn].
    unfold wf_store. cbn [blocks bitmap].
    rewrite List.length_map, List.length_seq, bit_count_set, data_length_set, Hlen, Hn.
    split; [|split]; reflexivity.
  - cbn [bitmap]. apply test_set_eq.
    + by apply (wf_bitmap_create BLOCK_COUNT).
    + destruct (wf_bitmap_create _ _ Hbm) as [_ ->]. unfold BLOCK_COUNT. lia.
  - cbn [bitmap]. intros k Hk. rewrite test_set_ne by congruence.
    by apply (test_create BLOCK_COUNT).
Qed.

End StoreFacts.

(** ** Sequences of public operations *)

(** The calls a client can make on a store it holds.  The counting functions
    and block_store_read leave the store as it is; they are listed so that a
    sequence can interleave them freely. *)
Inductive op : Type :=
| OpAllocate
| OpRequest (block_id : Z)
| OpRelease (block_id : Z)
| OpGetUsed
| OpGetFree
| OpRead (block_id : Z) (buffer : option (list byte))
| OpWrite (block_id : Z) (buffer : option (list byte)).

(** The store after one call.  There is none after the write that lands on
    the bitmap object: what the handle points to is no bitmap any more. *)
Definition step (s : block_store_t) (o : op) : option block_store_t :=
  match o with
  | OpAllocate => snd (block_store_allocate (Some s))
  | OpRequest id => snd (block_store_request (Some s) id)
  | OpRelease id => block_store_release (Some s) id
  | OpGetUsed | OpGetFree => Some s
  | OpRead id buf => read_store (block_store_read (Some s) id buf)
  | OpWrite id buf =>
      match block_store_write (Some s) id buf with
      | WriteDone _ bs' => bs'
      | WriteBitmapObject _ _ _ _ => None
      end
  end.

Fixpoint run (ops : list op) (s : block_store_t) : option block_store_t :=
  match ops with
  | [] => Some s
  | o :: ops' =>
      match step s o with
      | Some s' => run ops' s'
      | None => None
      end
  end.

(** A store is reachable when a sequence of calls leads to it from what
    block_store_create returned. *)
Definition reachable (s : block_store_t) : Prop :=
  exists heap s0 ops, block_store_create heap = Some s0 /\ run ops s0 = Some s.

(** ** A concrete store, for the examples *)

Definition zero_block : block := replicate (Z.to_nat BLOCK_SIZE) "000"%byte.
Definition zero_heap : nat -> block := fun _ => zero_block.

(** The store block_store_create returns over [zero_heap]: 255 blocks and the
    bitmap with bit 255 (the top bit of byte 31) set. *)
Definition sample_store : block_store_t :=
  {| blocks := replicate 255 zero_block;
     bitmap := {| bit_count := 256; data := replicate 31 0 ++ [128] |} |}.

Example create_zero_heap : block_store_create zero_heap = Some sample_store.
Proof. vm_compute. reflexivity. Qed.

Lemma wf_sample_store : wf_store sample_store.
Proof. unfold wf_store. repeat split; vm_compute; reflexivity. Defined.

Section StepFacts.

Implicit Types (s : block_store_t) (bs : option block_store_t) (id : Z).

(** block_store_read hands the store back as it received it. *)
Lemma read_store_same bs id buf : read_store (block_store_read bs id buf) = bs.
Proof.
  unfold block_store_read.
  destruct bs as [s|], buf as [buf|]; try reflexivity.
  destruct (BLOCK_COUNT - 1 <? id); [reflexivity|].
  destruct (bs_slot s id) as [[b|bm]|]; reflexivity.
Qed.

Lemma step_wf s o s' : wf_store s -> step s o = Some s' -> wf_store s'.
Proof.
  intros Hwf. destruct o as [|id|id| | |id buf|id buf]; unfold step.
  - unfold block_store_allocate.
    destruct (bitmap_ffz (bitmap s) =? SIZE_MAX); simpl; intros [= <-];
      [done | by apply wf_store_with_set].
  - unfold block_store_request.
    destruct (BLOCK_COUNT - 1 <? id); simpl; [by intros [= <-]|].
    destruct (negb (bitmap_test (bitmap s) id)); simpl; intros [= <-];
      [by apply wf_store_with_set | done].
  - simpl. intros [= <-]. by apply wf_store_with_reset.
  - by intros [= <-].
  - by intros [= <-].
  - rewrite read_store_same. by intros [= <-].
  - unfold block_store_write. destruct buf as [buf|]; [|by intros [= <-]].
    destruct (BLOCK_COUNT - 1 <? id); [by intros [= <-]|].
    destruct (bs_slot s id) as [[b|bm]|]; [| discriminate | by intros [= <-]].
    intros [= <-]. destruct Hwf as (Hlen & Hbm). unfold wf_store. simpl.
    by rewrite length_insert.
Qed.

Lemma run_wf ops : forall s s', wf_store s -> run ops s = Some s' -> wf_store s'.
Proof.
  induction ops as [|o ops IH]; simpl; intros s s' Hwf Hrun.
  - by injection Hrun as <-.
  - destruct (step s o) as [s1|] eqn:Hstep; [|discriminate].
    eapply IH; [|exact Hrun]. eapply step_wf; eauto.
Qed.

Lemma reachable_wf s : reachable s -> wf_store s.
Proof.
  intros (heap & s0 & ops & Hc & Hrun).
  destruct (create_returns heap) as (s0' & Hc' & Hwf & _).
  rewrite Hc in Hc'. injection Hc' as <-. eapply run_wf; eauto.
Qed.

End StepFacts.

(** ** The reserved slot *)

Section Reserved.

Implicit Types (s : block_store_t) (bs : option block_store_t) (id : Z).

(** A block id above [BLOCK_COUNT - 1] is refused by both copies: 0 is
    returned, and store and buffer stay as they were. *)
Lemma rw_beyond_range bs id buf :
  BLOCK_COUNT <= id ->
  block_store_read bs id buf = ReadDone 0 bs buf /\
  block_store_write bs id buf = WriteDone 0 bs.
Proof.
  intros Hid. unfold block_store_read, block_store_write.
  destruct bs as [s|], buf as [buf|]; try (split; reflexivity).
  assert ((BLOCK_COUNT - 1 <? id) = true) as -> by (apply Z.ltb_lt; lia).
  split; reflexivity.
Qed.

(** A set bit stays set under every call except a release of that very
    index. *)
Lemma step_keeps_bit s o s' (x : Z) :
  wf_store s ->
  0 <= x < BLOCK_COUNT ->
  o <> OpRelease x ->
  step s o = Some s' ->
  bitmap_test (bitmap s) x = true ->
  bitmap_test (bitmap s') x = true.
Proof.
  intros Hwf Hx Hne Hstep Hset.
  destruct o as [|id|id| | |id buf|id buf]; unfold step in Hstep.
  - unfold block_store_allocate in Hstep.
    destruct (bitmap_ffz (bitmap s) =? SIZE_MAX); simpl in Hstep;
      injection Hstep as <-; [done|]. simpl.
    destruct (decide (bitmap_ffz (bitmap s) = x)) as [->|Hd].
    + apply test_set_eq; [by apply wf_store_bitmap|].
      by destruct Hwf as (_ & -> & _).
    + by rewrite test_set_ne.
  - unfold block_store_request in Hstep.
    destruct (BLOCK_COUNT - 1 <? id); simpl in Hstep; [by injection Hstep as <-|].
    destruct (bitmap_test (bitmap s) id) eqn:Ht; simpl in Hstep;
      injection Hstep as <-; [done|]. simpl.
    rewrite test_set_ne; [done|]. intros ->. congruence.
  - simpl in Hstep. injection Hstep as <-. simpl.
    rewrite test_reset_ne; [done|]. congruence.
  - by injection Hstep as <-.
  - by injection Hstep as <-.
  - rewrite read_store_same in Hstep. by injection Hstep as <-.
  - unfold block_store_write in Hstep. destruct buf as [buf|]; [|by injection Hstep as <-].
    destruct (BLOCK_COUNT - 1 <? id); [by injection Hstep as <-|].
    destruct (bs_slot s id) as [[b|bm]|]; [| discriminate | by injection Hstep as <-].
    by injection Hstep as <-.
Qed.

Lemma run_keeps_bit ops (x : Z) : forall s s',
  wf_store s ->
  0 <= x < BLOCK_COUNT ->
  ~ In (OpRelease x) ops ->
  run ops s = Some s' ->
  bitmap_test (bitmap s) x = true ->
  bitmap_test (bitmap s') x = true.
Proof.
  induction ops as [|o ops IH]; simpl; intros s s' Hwf Hx Hnot Hrun Hset.
  - by injection Hrun as <-.
  - destruct (step s o) as [s1|] eqn:Hstep; [|discriminate].
    apply (IH s1 s'); auto.
    + eapply step_wf; eauto.
    + eapply step_keeps_bit; eauto.
Qed.

(** C1, evaluated on the code: block_store_release has no test of the block
    id, so releasing the reserved index [BLOCK_COUNT - 1] of the store that
    block_store_create returned leads to a reachable store whose reserved bit
    is clear; block_store_get_used_blocks then returns [SIZE_MAX] (its
    unsigned [0 - 1]), and the next block_store_allocate of a store with no
    user block left would hand out the slot of the bitmap. *)
Theorem release_reserved_clears_bit (heap : nat -> block) :
  exists s s',
    block_store_create heap = Some s /\
    bitmap_test (bitmap s) (BLOCK_COUNT - 1) = true /\
    block_store_release (Some s) (BLOCK_COUNT - 1) = Some s' /\
    reachable s' /\
    bitmap_test (bitmap s') (BLOCK_COUNT - 1) = false /\
    block_store_get_used_blocks (Some s') = SIZE_MAX.
Proof.
  destruct (create_returns heap) as (s & Hc & Hwf & Hres & Hfree).
  exists s. eexists. split; [exact Hc|]. split; [exact Hres|].
  split; [reflexivity|]. split; [|split].
  - exists heap, s, [OpRelease (BLOCK_COUNT - 1)]. split; [exact Hc | reflexivity].
  - simpl. apply test_reset_eq.
  - unfold block_store_get_used_blocks, bitmap_total_set. cbn [bitmap].
    rewrite count_from_all_clear; [reflexivity|].
    intros k _. destruct (decide (k = BLOCK_COUNT - 1)) as [->|Hk].
    + apply test_reset_eq.
    + rewrite test_reset_ne by congruence. by apply Hfree.
Qed.

(** What follows from it: with the 255 user blocks taken and the reserved
    index released, the next block_store_allocate returns 255, the slot of
    the bitmap itself. *)
Example allocate_hands_out_reserved :
  exists s,
    run (repeat OpAllocate 255 ++ [OpRelease (BLOCK_COUNT - 1)]) sample_store = Some s /\
    fst (block_store_allocate (Some s)) = BLOCK_COUNT - 1.
Proof. eexists. split; vm_compute; reflexivity. Qed.

(** C2, evaluated on the code: the guard of block_store_read and
    block_store_write is [block_id > BLOCK_COUNT - 1], which lets the
    reserved index [BLOCK_COUNT - 1] through.  Both calls then run their
    [memcpy] on the bitmap handle and return [BLOCK_SIZE], not 0; the write
    stores the buffer's bytes over the bitmap object. *)
Theorem rw_reserved_slot_passes_guard (s : block_store_t) (buf : list byte) :
  block_store_read (Some s) (BLOCK_COUNT - 1) (Some buf)
    = ReadBitmapObject BLOCK_SIZE (Some s) (bitmap s) /\
  block_store_write (Some s) (BLOCK_COUNT - 1) (Some buf)
    = WriteBitmapObject BLOCK_SIZE (blocks s) (bitmap s) (take (Z.to_nat BLOCK_SIZE) buf) /\
  read_ret (block_store_read (Some s) (BLOCK_COUNT - 1) (Some buf)) = 256 /\
  write_ret (block_store_write (Some s) (BLOCK_COUNT - 1) (Some buf)) = 256.
Proof. repeat split; reflexivity. Qed.

End Reserved.

(** ** Counting *)

Section Counting.

Implicit Types (s : block_store_t).

Lemma wrap_sum (t : Z) :
  size_t_wrap (size_t_wrap (t - 1) + size_t_wrap (BLOCK_COUNT - t)) = BLOCK_COUNT - 1.
Proof.
  unfold size_t_wrap.
  rewrite <- Z.add_mod by (unfold SIZE_MAX; lia).
  replace (t - 1 + (BLOCK_COUNT - t)) with (BLOCK_COUNT - 1) by lia.
  reflexivity.
Qed.

Lemma counts_exact s :
  bit_count (bitmap s) = BLOCK_COUNT ->
  bitmap_test (bitmap s) (BLOCK_COUNT - 1) = true ->
  block_store_get_used_blocks (Some s) = bitmap_total_set (bitmap s) - 1 /\
  block_store_get_free_blocks (Some s) = BLOCK_COUNT - bitmap_total_set (bitmap s) /\
  0 <= block_store_get_used_blocks (Some s) <= BLOCK_COUNT - 1.
Proof.
  intros Hn Hres. simpl. unfold size_t_wrap.
  pose proof (total_set_bounds (bitmap s)) as Hb. rewrite Hn in Hb.
  pose proof (total_set_pos _ _ Hres) as Hp.
  unfold BLOCK_COUNT, SIZE_MAX in *.
  rewrite !Z.mod_small by lia. lia.
Qed.

(** C4: for every store, the sum of what block_store_get_used_blocks and
    block_store_get_free_blocks return, taken as the [size_t] sum the C
    expression computes, equals block_store_get_total_blocks, which is the
    constant [BLOCK_COUNT - 1 = 255].  This covers every store a sequence of
    public operations can reach.  Where the reserved bit is set, neither
    count wraps and the sum is 255 as a plain integer as well. *)
Theorem used_plus_free_is_total (s : block_store_t) :
  size_t_wrap (block_store_get_used_blocks (Some s) + block_store_get_free_blocks (Some s))
    = block_store_get_total_blocks /\
  block_store_get_total_blocks = BLOCK_COUNT - 1 /\
  block_store_get_total_blocks = 255 /\
  (bit_count (bitmap s) = BLOCK_COUNT ->
   bitmap_test (bitmap s) (BLOCK_COUNT - 1) = true ->
   block_store_get_used_blocks (Some s) + block_store_get_free_blocks (Some s)
     = block_store_get_total_blocks).
Proof.
  split; [apply wrap_sum|]. split; [reflexivity|]. split; [reflexivity|].
  intros Hn Hres. destruct (counts_exact s Hn Hres) as (-> & -> & _).
  unfold block_store_get_total_blocks. lia.
Qed.

Lemma used_plus_free_is_total_witness :
  size_t_wrap (block_store_get_used_blocks (Some sample_store)
               + block_store_get_free_blocks (Some sample_store)) = 255 /\
  block_store_get_used_blocks (Some sample_store)
    + block_store_get_free_blocks (Some sample_store) = 255.
Proof.
  destruct (used_plus_free_is_total sample_store) as (Hw & _ & Ht & Hexact).
  split.
  - rewrite Hw. exact Ht.
  - rewrite Hexact; [exact Ht | reflexivity | vm_compute; reflexivity].
Defined.

End Counting.

(** ** Reading and writing blocks *)

Section Transfer.

Implicit Types (s : block_store_t) (bs : option block_store_t) (id : Z).

Lemma bs_slot_user s id :
  wf_store s -> 0 <= id < BLOCK_COUNT - 1 ->
  exists b, blocks s !! Z.to_nat id = Some b /\ bs_slot s id = Some (DataBlock b).
Proof.
  intros (Hlen & _) Hid. unfold bs_slot.
  assert ((id =? BLOCK_COUNT - 1) = false) as -> by (apply Z.eqb_neq; lia).
  destruct (lookup_lt_is_Some_2 (blocks s) (Z.to_nat id)) as [b Hb]; [lia|].
  exists b. by rewrite Hb.
Qed.

(** C5: for every store and every user block id, writing a payload [B] of
    [BLOCK_SIZE] bytes and then reading the same block gives the payload
    back: both calls return [BLOCK_SIZE] (256), and the buffer read into
    starts with [B] (it is [B] when it has [BLOCK_SIZE] bytes).  Nothing is
    assumed about the block's bit in the bitmap, which the write leaves as
    it was. *)
Theorem write_read_roundtrip (s : block_store_t) (id : Z) (B B2 : list byte) :
  wf_store s ->
  0 <= id < BLOCK_COUNT - 1 ->
  Z.of_nat (length B) = BLOCK_SIZE ->
  exists s',
    block_store_write (Some s) id (Some B) = WriteDone BLOCK_SIZE (Some s') /\
    bitmap s' = bitmap s /\
    block_store_read (Some s') id (Some B2)
      = ReadDone BLOCK_SIZE (Some s') (Some (B ++ drop (Z.to_nat BLOCK_SIZE) B2)) /\
    (Z.of_nat (length B2) = BLOCK_SIZE ->
     block_store_read (Some s') id (Some B2) = ReadDone BLOCK_SIZE (Some s') (Some B)) /\
    BLOCK_SIZE = 256.
Proof.
  intros Hwf Hid HB.
  destruct (bs_slot_user s id Hwf Hid) as (b & Hb & Hslot).
  assert (Hguard : (BLOCK_COUNT - 1 <? id) = false) by (apply Z.ltb_ge; lia).
  assert (Hrt : memcpy B2 (memcpy b B BLOCK_SIZE) BLOCK_SIZE
                = B ++ drop (Z.to_nat BLOCK_SIZE) B2).
  { unfold memcpy. f_equal. rewrite (take_ge B) by lia.
    apply take_app_length'. lia. }
  eexists. unfold block_store_write. rewrite Hguard, Hslot.
  split; [reflexivity|]. split; [reflexivity|].
  assert (Hread : block_store_read
            (Some {| blocks := <[Z.to_nat id := memcpy b B BLOCK_SIZE]> (blocks s);
                     bitmap := bitmap s |}) id (Some B2)
          = ReadDone BLOCK_SIZE
              (Some {| blocks := <[Z.to_nat id := memcpy b B BLOCK_SIZE]> (blocks s);
                       bitmap := bitmap s |})
              (Some (B ++ drop (Z.to_nat BLOCK_SIZE) B2))).
  { unfold block_store_read. rewrite Hguard. unfold bs_slot. cbn [blocks].
    assert ((id =? BLOCK_COUNT - 1) = false) as -> by (apply Z.eqb_neq; lia).
    rewrite list_lookup_insert_eq by (eapply lookup_lt_Some; eauto).
    cbn [fmap option_fmap option_map]. by rewrite Hrt. }
  split; [exact Hread|]. split; [|reflexivity].
  intros HB2. rewrite Hread. rewrite drop_ge by lia. by rewrite app_nil_r.
Qed.

Lemma write_read_roundtrip_witness :
  wf_store sample_store /\
  exists s',
    block_store_write (Some sample_store) 7 (Some (replicate 256 "255"%byte))
      = WriteDone 256 (Some s') /\
    block_store_read (Some s') 7 (Some zero_block)
      = ReadDone 256 (Some s') (Some (replicate 256 "255"%byte)).
Proof.
  split; [exact wf_sample_store|].
  destruct (write_read_roundtrip sample_store 7 (replicate 256 "255"%byte) zero_block)
    as (s' & Hw & _ & _ & Hr & _).
  - exact wf_sample_store.
  - unfold BLOCK_COUNT. lia.
  - reflexivity.
  - exists s'. split; [exact Hw|]. apply Hr. reflexivity.
Defined.

(** C10: block_store_read returns the store it was given, whatever the
    store, the block id and the buffer are, and whether it copies or
    refuses: bitmap and blocks after the call are those before it. *)
Theorem read_leaves_store (bs : option block_store_t) (id : Z)
    (buffer : option (list byte)) :
  read_store (block_store_read bs id buffer) = bs.
Proof. apply read_store_same. Qed.

End Transfer.

(** ** Allocation, request and release *)

Section Allocation.

Implicit Types (s : block_store_t) (bs : option block_store_t) (id : Z).

Lemma ffz_from_cases (bm : bitmap_t) (n : nat) : forall i,
  ffz_from bm i n = SIZE_MAX \/
  (i <= ffz_from bm i n < i + Z.of_nat n /\ bitmap_test bm (ffz_from bm i n) = false).
Proof.
  induction n as [|n IH]; intros i; simpl; [by left|].
  destruct (bitmap_test bm i) eqn:Hi.
  - destruct (IH (i + 1)) as [H|[H1 H2]]; [by left | right; split; [lia | done]].
  - right. split; [lia | done].
Qed.

(** What a successful block_store_allocate tells about the id it returns. *)
Lemma allocate_returns s (x : Z) s1 :
  wf_store s ->
  block_store_allocate (Some s) = (x, Some s1) ->
  x <> SIZE_MAX ->
  0 <= x < BLOCK_COUNT /\
  bitmap_test (bitmap s) x = false /\
  s1 = {| blocks := blocks s; bitmap := bitmap_set (bitmap s) x |} /\
  bitmap_test (bitmap s1) x = true.
Proof.
  intros Hwf Halloc Hx. unfold block_store_allocate in Halloc.
  destruct (bitmap_ffz (bitmap s) =? SIZE_MAX) eqn:E;
    injection Halloc as Hx' Hs1; [congruence|]. subst x s1.
  destruct (ffz_from_cases (bitmap s) (Z.to_nat (bit_count (bitmap s))) 0)
    as [H|[Hr Hc]]; [done|]. fold (bitmap_ffz (bitmap s)) in Hr, Hc.
  pose proof Hwf as (Hlen & Hn & Hd). rewrite Hn in Hr.
  assert (Hrange : 0 <= bitmap_ffz (bitmap s) < BLOCK_COUNT) by (unfold BLOCK_COUNT in *; lia).
  repeat split; try done; try lia.
  simpl. apply test_set_eq; [by apply wf_store_bitmap | by rewrite Hn].
Qed.

(** What block_store_allocate does on every well-formed store: with a free
    user block it returns the lowest index whose bit is clear (every lower
    bit is set) and the store it leaves has that bit set and nothing else
    changed; with no clear bit among all [BLOCK_COUNT], the reserved one
    included, which is when block_store_get_free_blocks returns 0, it
    returns [SIZE_MAX] and leaves the store as it is; on a null store it
    returns [SIZE_MAX].  The store with every user block taken and the
    reserved bit clear is in neither case. *)
Theorem allocate_lowest_free (s : block_store_t) :
  wf_store s ->
  (forall j, 0 <= j < BLOCK_COUNT - 1 -> bitmap_test (bitmap s) j = false ->
     exists x s',
       block_store_allocate (Some s) = (x, Some s') /\
       0 <= x <= j /\
       bitmap_test (bitmap s) x = false /\
       (forall k, 0 <= k < x -> bitmap_test (bitmap s) k = true) /\
       bitmap_test (bitmap s') x = true /\
       (forall k, k <> x -> bitmap_test (bitmap s') k = bitmap_test (bitmap s) k) /\
       blocks s' = blocks s) /\
  ((forall k, 0 <= k < BLOCK_COUNT -> bitmap_test (bitmap s) k = true) ->
     block_store_allocate (Some s) = (SIZE_MAX, Some s)) /\
  (block_store_get_free_blocks (Some s) = 0 ->
     block_store_allocate (Some s) = (SIZE_MAX, Some s)) /\
  block_store_allocate None = (SIZE_MAX, None).
Proof.
  intros Hwf. pose proof Hwf as (Hlen & Hn & Hd).
  assert (Hfull_case : (forall k, 0 <= k < BLOCK_COUNT -> bitmap_test (bitmap s) k = true) ->
                       block_store_allocate (Some s) = (SIZE_MAX, Some s)).
  { intros Hfull. unfold block_store_allocate.
    rewrite ffz_full by (by rewrite Hn). by rewrite Z.eqb_refl. }
  split; [|split; [exact Hfull_case|split; [|reflexivity]]]; cycle 1.
  { intros Hzero. apply Hfull_case. intros k Hk.
    unfold block_store_get_free_blocks, size_t_wrap in Hzero.
    pose proof (total_set_bounds (bitmap s)) as Hb. rewrite Hn in Hb.
    unfold BLOCK_COUNT, SIZE_MAX in *. rewrite Z.mod_small in Hzero by lia.
    apply (count_from_full (bitmap s) (Z.to_nat (bit_count (bitmap s))) 0).
    - fold (bitmap_total_set (bitmap s)). rewrite Hn. lia.
    - rewrite Hn. lia. }
  - intros j Hj Hfree.
    destruct (ffz_lowest (bitmap s) j) as (Hr & Hc & Hlow); [rewrite Hn; lia | done |].
    exists (bitmap_ffz (bitmap s)). eexists.
    unfold block_store_allocate.
    assert ((bitmap_ffz (bitmap s) =? SIZE_MAX) = false) as ->.
    { apply Z.eqb_neq. pose proof SIZE_MAX_big. lia. }
    split; [reflexivity|]. split; [done|]. split; [done|]. split; [done|].
    simpl. split; [|split; [|reflexivity]].
    + apply test_set_eq; [by apply wf_store_bitmap | rewrite Hn; lia].
    + intros k Hk. apply test_set_ne. congruence.
Qed.

Lemma allocate_lowest_free_witness :
  wf_store sample_store /\
  fst (block_store_allocate (Some sample_store)) = 0.
Proof.
  split; [exact wf_sample_store|].
  destruct (allocate_lowest_free sample_store wf_sample_store) as (Hfree & _).
  destruct (Hfree 0) as (x & s' & Ha & Hx & _).
  - unfold BLOCK_COUNT. lia.
  - reflexivity.
  - rewrite Ha. simpl. lia.
Defined.

(** What block_store_request does, read off its guard: it returns true
    exactly when the store is not null, the id is within the [BLOCK_COUNT]
    indices of the bitmap, the reserved index included, and the bit is
    clear, and then the store it leaves has that bit set and nothing else
    changed; in every other case (null store, id above [BLOCK_COUNT - 1],
    bit already set) it returns false and the store is the one it was
    given.  Only on a store whose reserved bit is set is "within the
    indices and clear" the same as "a user block id below
    [BLOCK_COUNT - 1] and clear". *)
Theorem request_iff_free (bs : option block_store_t) (id : Z) :
  0 <= id ->
  match bs with Some s => wf_store s | None => True end ->
  (fst (block_store_request bs id) = true <->
     exists s, bs = Some s /\ id < BLOCK_COUNT /\ bitmap_test (bitmap s) id = false) /\
  (fst (block_store_request bs id) = true ->
     exists s s', bs = Some s /\ snd (block_store_request bs id) = Some s' /\
       bitmap_test (bitmap s') id = true /\
       (forall k, k <> id -> bitmap_test (bitmap s') k = bitmap_test (bitmap s) k) /\
       blocks s' = blocks s) /\
  (fst (block_store_request bs id) = false -> snd (block_store_request bs id) = bs) /\
  (forall s, bs = Some s -> bitmap_test (bitmap s) (BLOCK_COUNT - 1) = true ->
     (fst (block_store_request bs id) = true <->
        id < BLOCK_COUNT - 1 /\ bitmap_test (bitmap s) id = false)).
Proof.
  intros Hid Hwf. destruct bs as [s|]; simpl.
  2:{ repeat split; try discriminate; try done.
      intros (s & ? & _); discriminate. }
  destruct (BLOCK_COUNT - 1 <? id) eqn:Hg; simpl.
  - apply Z.ltb_lt in Hg.
    split; [|split; [|split]]; try discriminate; try done.
    + split; [discriminate|]. intros (s0 & _ & ? & _). lia.
    + intros s0 _ _. split; [discriminate|]. lia.
  - apply Z.ltb_ge in Hg.
    destruct (bitmap_test (bitmap s) id) eqn:Ht; simpl.
    + split; [|split; [|split]]; try discriminate; try done.
      * split; [discriminate|]. intros (s0 & [= <-] & _ & ?). congruence.
      * intros s0 [= <-] _. split; [discriminate|]. intros [_ ?]. congruence.
    + split; [|split; [|split]]; try discriminate.
      * split; [|done]. intros _. exists s. repeat split; [lia | done].
      * intros _. exists s. eexists. split; [done|]. split; [reflexivity|].
        simpl. split; [|split; [|reflexivity]].
        -- apply test_set_eq; [by apply wf_store_bitmap|].
           destruct Hwf as (_ & -> & _). lia.
        -- intros k Hk. apply test_set_ne. congruence.
      * intros s0 [= <-] Hres. split; [|done]. intros _. split; [|done].
        destruct (decide (id = BLOCK_COUNT - 1)) as [->|]; [congruence | lia].
Qed.

Lemma request_iff_free_witness :
  fst (block_store_request (Some sample_store) 3) = true /\
  fst (block_store_request (Some sample_store) 255) = false.
Proof.
  split.
  - destruct (request_iff_free (Some sample_store) 3) as (H1 & _);
      [lia | exact wf_sample_store |].
    apply H1. exists sample_store.
    split; [reflexivity|]. split; [unfold BLOCK_COUNT; lia | reflexivity].
  - destruct (request_iff_free (Some sample_store) 255) as (H1 & _);
      [lia | exact wf_sample_store |].
    destruct (fst (block_store_request (Some sample_store) 255)); [|reflexivity].
    destruct (proj1 H1 eq_refl) as (s & [= <-] & _ & Hc). discriminate Hc.
Defined.

End Allocation.

Section Lifecycle.

Implicit Types (s : block_store_t) (bs : option block_store_t) (id : Z).

Lemma request_taken s (x : Z) :
  bitmap_test (bitmap s) x = true ->
  block_store_request (Some s) x = (false, Some s).
Proof.
  intros Hset. unfold block_store_request.
  destruct (BLOCK_COUNT - 1 <? x); [reflexivity|]. by rewrite Hset.
Qed.

Lemma request_after_release s (x : Z) :
  x < BLOCK_COUNT ->
  fst (block_store_request (block_store_release (Some s) x) x) = true.
Proof.
  intros Hx. unfold block_store_release, block_store_request.
  assert ((BLOCK_COUNT - 1 <? x) = false) as -> by (apply Z.ltb_ge; lia).
  cbn [bitmap]. by rewrite test_reset_eq.
Qed.

(** C7: once block_store_allocate has returned the id [x], a
    block_store_request for [x] returns false, and changes nothing, in every
    store that later calls lead to, as long as none of them is
    block_store_release of [x]; right after block_store_release of [x] the
    request returns true. *)
Theorem allocated_until_released (s s1 s2 : block_store_t) (x : Z) (ops : list op) :
  wf_store s ->
  block_store_allocate (Some s) = (x, Some s1) ->
  x <> SIZE_MAX ->
  ~ In (OpRelease x) ops ->
  run ops s1 = Some s2 ->
  block_store_request (Some s2) x = (false, Some s2) /\
  fst (block_store_request (block_store_release (Some s2) x) x) = true.
Proof.
  intros Hwf Halloc Hx Hnot Hrun.
  destruct (allocate_returns s x s1 Hwf Halloc Hx) as (Hrange & _ & Hs1 & Hset).
  assert (Hwf1 : wf_store s1) by (subst s1; by apply wf_store_with_set).
  split.
  - apply request_taken. by apply (run_keeps_bit ops x s1 s2).
  - apply request_after_release. lia.
Qed.

Lemma allocated_until_released_witness :
  block_store_request
    (Some {| blocks := <[5%nat := replicate 256 "001"%byte]> (blocks sample_store);
             bitmap := {| bit_count := 256; data := [7] ++ replicate 30 0 ++ [128] |} |}) 0
  = (false,
     Some {| blocks := <[5%nat := replicate 256 "001"%byte]> (blocks sample_store);
             bitmap := {| bit_count := 256; data := [7] ++ replicate 30 0 ++ [128] |} |}).
Proof.
  apply (allocated_until_released sample_store
           {| blocks := blocks sample_store;
              bitmap := {| bit_count := 256; data := [1] ++ replicate 30 0 ++ [128] |} |}
           _ 0
           [OpAllocate; OpRequest 2; OpRequest 0; OpWrite 5 (Some (replicate 256 "001"%byte));
            OpRelease 3; OpRead 0 (Some zero_block); OpGetUsed]).
  - exact wf_sample_store.
  - vm_compute. reflexivity.
  - discriminate.
  - intros [H|[H|[H|[H|[H|[H|[H|[]]]]]]]]; discriminate H.
  - vm_compute. reflexivity.
Defined.

(** C8: block_store_release leaves the block's bit clear and touches
    nothing else; releasing the same id again gives the same store, with
    the bit still clear; releasing a block that is already free leaves the
    store as it is; on a null store the call does nothing. *)
Theorem release_idempotent (s : block_store_t) (id : Z) :
  (exists s1,
     block_store_release (Some s) id = Some s1 /\
     bitmap_test (bitmap s1) id = false /\
     (forall k, k <> id -> bitmap_test (bitmap s1) k = bitmap_test (bitmap s) k) /\
     blocks s1 = blocks s /\
     block_store_release (Some s1) id = Some s1) /\
  block_store_release (block_store_release (Some s) id) id
    = block_store_release (Some s) id /\
  (bitmap_test (bitmap s) id = false -> block_store_release (Some s) id = Some s) /\
  block_store_release None id = None.
Proof.
  split; [|split; [|split; [|reflexivity]]].
  - eexists. split; [reflexivity|]. cbn [bitmap blocks].
    split; [apply test_reset_eq|]. split; [|split; [reflexivity|]].
    + intros k Hk. apply test_reset_ne. congruence.
    + unfold block_store_release. cbn [bitmap blocks]. by rewrite reset_reset.
  - unfold block_store_release. cbn [bitmap blocks]. by rewrite reset_reset.
  - intros Hfree. unfold block_store_release. rewrite reset_clear_id by done.
    by destruct s.
Qed.

Lemma release_idempotent_witness :
  block_store_release (Some sample_store) 9 = Some sample_store.
Proof.
  destruct (release_idempotent sample_store 9) as (_ & _ & Hnoop & _).
  apply Hnoop. reflexivity.
Defined.

(** C9: the store block_store_create returns has every user block free:
    block_store_get_used_blocks returns 0, block_store_get_free_blocks
    returns [BLOCK_COUNT - 1] (255), every user block id has its bit clear
    and a block_store_request for it returns true. *)
Theorem create_all_free (heap : nat -> block) :
  exists s,
    block_store_create heap = Some s /\
    block_store_get_used_blocks (Some s) = 0 /\
    block_store_get_free_blocks (Some s) = BLOCK_COUNT - 1 /\
    block_store_get_free_blocks (Some s) = 255 /\
    (forall id, 0 <= id < BLOCK_COUNT - 1 ->
       bitmap_test (bitmap s) id = false /\
       fst (block_store_request (Some s) id) = true).
Proof.
  destruct (create_returns heap) as (s & Hc & Hwf & Hres & Hfree).
  exists s. split; [exact Hc|].
  assert (Htotal : bitmap_total_set (bitmap s) = 1).
  { unfold bitmap_total_set. destruct Hwf as (_ & -> & _).
    apply (count_from_single _ _ 0 (BLOCK_COUNT - 1)); [vm_compute; intuition discriminate | done | done]. }
  unfold block_store_get_used_blocks, block_store_get_free_blocks.
  rewrite Htotal. split; [reflexivity|]. split; [reflexivity|]. split; [reflexivity|].
  intros id Hid. assert (Hclear : bitmap_test (bitmap s) id = false) by (apply Hfree; lia).
  split; [exact Hclear|]. unfold block_store_request.
  assert ((BLOCK_COUNT - 1 <? id) = false) as -> by (apply Z.ltb_ge; lia).
  by rewrite Hclear.
Qed.

Lemma create_all_free_witness :
  exists s, block_store_create zero_heap = Some s /\
            fst (block_store_request (Some s) 254) = true.
Proof.
  destruct (create_all_free zero_heap) as (s & Hc & _ & _ & _ & Hreq).
  exists s. split; [exact Hc|]. apply Hreq. unfold BLOCK_COUNT. lia.
Defined.

End Lifecycle.

(** ** Further properties of the block store *)

Section BitmapUpdates.

Implicit Types (bm : bitmap_t) (i j : Z) (n : nat).

Lemma lor_ldiff_clear (b m : Z) :
  (forall k, 0 <= k -> Z.testbit m k = true -> Z.testbit b k = false) ->
  Z.ldiff (Z.lor b m) m = b.
Proof.
  intros Hclear. apply Z.bits_inj'. intros k Hk.
  rewrite Z.ldiff_spec, Z.lor_spec.
  destruct (Z.testbit m k) eqn:Hm; simpl.
  - rewrite (Hclear k Hk Hm). reflexivity.
  - rewrite orb_false_r, andb_true_r. reflexivity.
Qed.

(** Setting a clear bit and resetting it gives the bitmap back. *)
Lemma reset_set_clear bm i :
  bitmap_test bm i = false -> bitmap_reset (bitmap_set bm i) i = bm.
Proof.
  intros Ht. destruct (valid_index bm i) eqn:Hi.
  - unfold bitmap_set. rewrite Hi. unfold bitmap_reset.
    assert (Hv : valid_index
              {| bit_count := bit_count bm;
                 data := alter (fun b => Z.lor b (bit_mask i)) (byte_index i) (data bm) |} i
            = true) by exact Hi.
    rewrite Hv. destruct bm as [n d]. cbn [bit_count data] in *. f_equal.
    rewrite list_alter_alter_eq. unfold bitmap_test in Ht. rewrite Hi in Ht.
    cbn [data] in Ht. apply andb_true_iff in Hi as [Hi0 _]. apply Z.leb_le in Hi0.
    assert (0 <= i mod 8 < 8) by (apply Z.mod_pos_bound; lia).
    apply list_eq. intros k. destruct (decide (k = byte_index i)) as [->|Hk].
    + rewrite list_lookup_alter_eq.
      destruct (d !! byte_index i) as [b|]; simpl; [|done].
      f_equal. apply lor_ldiff_clear. intros k Hk Hm.
      rewrite testbit_bit_mask in Hm by lia. apply Z.eqb_eq in Hm. by subst k.
    + by rewrite list_lookup_alter_ne.
  - unfold bitmap_set. rewrite Hi. unfold bitmap_reset. by rewrite Hi.
Qed.

Definition in_scan (i j : Z) (n : nat) : Z :=
  if (i <=? j) && (j <? i + Z.of_nat n) then 1 else 0.

Lemma in_scan_step i j n :
  i <> j -> in_scan i j (S n) = in_scan (i + 1) j n.
Proof.
  intros Hne. unfold in_scan.
  destruct ((i <=? j) && (j <? i + Z.of_nat (S n))) eqn:E1,
           ((i + 1 <=? j) && (j <? i + 1 + Z.of_nat n)) eqn:E2; try reflexivity.
  - lia.
  - lia.
Qed.

(** Setting a clear bit adds one to the count of a scan that covers it. *)
Lemma count_from_set bm j n : forall i,
  wf_bitmap bm -> 0 <= j < bit_count bm -> bitmap_test bm j = false ->
  count_from (bitmap_set bm j) i n = count_from bm i n + in_scan i j n.
Proof.
  induction n as [|n IH]; intros i Hwf Hj Hclear.
  - simpl. unfold in_scan.
    destruct ((i <=? j) && (j <? i + Z.of_nat 0)) eqn:E; lia.
  - cbn [count_from]. destruct (decide (i = j)) as [->|Hne].
    + rewrite test_set_eq, Hclear by done.
      rewrite IH by done. unfold in_scan.
      destruct ((j + 1 <=? j) && (j <? j + 1 + Z.of_nat n)) eqn:E1; [lia|].
      destruct ((j <=? j) && (j <? j + Z.of_nat (S n))) eqn:E2; lia.
    + rewrite test_set_ne by congruence. rewrite IH by done.
      rewrite (in_scan_step i j n Hne). lia.
Qed.

(** Resetting a set bit takes one off the count of a scan that covers it. *)
Lemma count_from_reset bm j n : forall i,
  bitmap_test bm j = true ->
  count_from (bitmap_reset bm j) i n = count_from bm i n - in_scan i j n.
Proof.
  induction n as [|n IH]; intros i Hset.
  - simpl. unfold in_scan.
    destruct ((i <=? j) && (j <? i + Z.of_nat 0)) eqn:E; lia.
  - cbn [count_from]. destruct (decide (i = j)) as [->|Hne].
    + rewrite test_reset_eq, Hset.
      rewrite IH by done. unfold in_scan.
      destruct ((j + 1 <=? j) && (j <? j + 1 + Z.of_nat n)) eqn:E1; [lia|].
      destruct ((j <=? j) && (j <? j + Z.of_nat (S n))) eqn:E2; lia.
    + rewrite test_reset_ne by congruence. rewrite IH by done.
      rewrite (in_scan_step i j n Hne). lia.
Qed.

Lemma test_valid bm i : bitmap_test bm i = true -> 0 <= i < bit_count bm.
Proof.
  unfold bitmap_test. destruct (valid_index bm i) eqn:Hv; [|discriminate].
  intros _. by apply valid_index_spec.
Qed.

Lemma total_set_set bm j :
  wf_bitmap bm -> 0 <= j < bit_count bm -> bitmap_test bm j = false ->
  bitmap_total_set (bitmap_set bm j) = bitmap_total_set bm + 1.
Proof.
  intros Hwf Hj Hclear. unfold bitmap_total_set.
  rewrite bit_count_set, count_from_set by done. unfold in_scan.
  destruct ((0 <=? j) && (j <? 0 + Z.of_nat (Z.to_nat (bit_count bm)))) eqn:E; lia.
Qed.

Lemma total_set_reset bm j :
  bitmap_test bm j = true ->
  bitmap_total_set (bitmap_reset bm j) = bitmap_total_set bm - 1.
Proof.
  intros Hset. pose proof (test_valid _ _ Hset) as Hj. unfold bitmap_total_set.
  rewrite bit_count_reset, count_from_reset by done. unfold in_scan.
  destruct ((0 <=? j) && (j <? 0 + Z.of_nat (Z.to_nat (bit_count bm)))) eqn:E; lia.
Qed.

Lemma count_from_app bm n m : forall i,
  count_from bm i (n + m) = count_from bm i n + count_from bm (i + Z.of_nat n) m.
Proof.
  induction n as [|n IH]; intros i; simpl.
  - by rewrite Z.add_0_r.
  - rewrite IH. replace (i + 1 + Z.of_nat n) with (i + Z.of_nat (S n)) by lia. lia.
Qed.

End BitmapUpdates.

Section TransferMore.

Implicit Types (s : block_store_t) (bs : option block_store_t) (id : Z).

(** X1: block_store_read and block_store_write refuse a null store, a null
    buffer and every block id from [BLOCK_COUNT] on: they return 0, and
    store and buffer are what they were. *)
Theorem rw_refuses (bs : option block_store_t) (id : Z) (buffer : option (list byte)) :
  bs = None \/ buffer = None \/ BLOCK_COUNT <= id ->
  block_store_read bs id buffer = ReadDone 0 bs buffer /\
  block_store_write bs id buffer = WriteDone 0 bs.
Proof.
  intros [-> | [-> | Hid]].
  - split; reflexivity.
  - destruct bs; split; reflexivity.
  - by apply rw_beyond_range.
Qed.

Lemma rw_refuses_witness :
  block_store_read (Some sample_store) 256 (Some zero_block)
    = ReadDone 0 (Some sample_store) (Some zero_block) /\
  block_store_write (Some sample_store) 3 None = WriteDone 0 (Some sample_store).
Proof.
  split.
  - apply (rw_refuses (Some sample_store) 256 (Some zero_block)).
    right. right. unfold BLOCK_COUNT. lia.
  - apply (rw_refuses (Some sample_store) 3 None). right. left. reflexivity.
Defined.

(** X2: a block_store_write to a user block succeeds whatever the block's
    bit says, and changes that block only: the bitmap, every other block,
    the two counts and the well-formedness of the store are as before. *)
Theorem write_touches_one_block (s : block_store_t) (id : Z) (buf : list byte) :
  wf_store s ->
  0 <= id < BLOCK_COUNT - 1 ->
  exists s',
    block_store_write (Some s) id (Some buf) = WriteDone BLOCK_SIZE (Some s') /\
    wf_store s' /\
    bitmap s' = bitmap s /\
    (forall j : nat, j <> Z.to_nat id -> blocks s' !! j = blocks s !! j) /\
    block_store_get_used_blocks (Some s') = block_store_get_used_blocks (Some s) /\
    block_store_get_free_blocks (Some s') = block_store_get_free_blocks (Some s).
Proof.
  intros Hwf Hid.
  destruct (bs_slot_user s id Hwf Hid) as (b & Hb & Hslot).
  eexists. unfold block_store_write. rewrite Hslot.
  assert ((BLOCK_COUNT - 1 <? id) = false) as -> by lia.
  split; [reflexivity|]. split; [|split; [reflexivity|split; [|split; reflexivity]]].
  - destruct Hwf as (Hlen & Hbm). unfold wf_store. cbn [blocks bitmap].
    by rewrite length_insert.
  - intros j Hj. cbn [blocks]. by rewrite list_lookup_insert_ne.
Qed.

Lemma write_touches_one_block_witness :
  exists s',
    block_store_write (Some sample_store) 4 (Some (replicate 256 "255"%byte))
      = WriteDone 256 (Some s') /\
    bitmap s' = bitmap sample_store.
Proof.
  destruct (write_touches_one_block sample_store 4 (replicate 256 "255"%byte))
    as (s' & Hw & _ & Hbm & _).
  - exact wf_sample_store.
  - unfold BLOCK_COUNT. lia.
  - exists s'. split; [exact Hw | exact Hbm].
Defined.

(** A call that is not a write to block [id]. *)
Definition leaves_block (id : Z) (o : op) : Prop :=
  match o with
  | OpWrite i _ => 0 <= i /\ i <> id
  | _ => True
  end.

Lemma step_keeps_block s o s' id :
  0 <= id ->
  leaves_block id o ->
  step s o = Some s' ->
  blocks s' !! Z.to_nat id = blocks s !! Z.to_nat id.
Proof.
  intros Hid Hleave Hstep.
  destruct o as [|i|i| | |i buf|i buf]; unfold step in Hstep.
  - unfold block_store_allocate in Hstep.
    destruct (bitmap_ffz (bitmap s) =? SIZE_MAX); simpl in Hstep; by injection Hstep as <-.
  - unfold block_store_request in Hstep.
    destruct (BLOCK_COUNT - 1 <? i); simpl in Hstep; [by injection Hstep as <-|].
    destruct (negb (bitmap_test (bitmap s) i)); simpl in Hstep; by injection Hstep as <-.
  - simpl in Hstep. by injection Hstep as <-.
  - by injection Hstep as <-.
  - by injection Hstep as <-.
  - rewrite read_store_same in Hstep. by injection Hstep as <-.
  - destruct Hleave as [Hi Hne]. unfold block_store_write in Hstep.
    destruct buf as [buf|]; [|by injection Hstep as <-].
    destruct (BLOCK_COUNT - 1 <? i); [by injection Hstep as <-|].
    destruct (bs_slot s i) as [[b|bm]|]; [| discriminate | by injection Hstep as <-].
    injection Hstep as <-. cbn [blocks]. apply list_lookup_insert_ne. lia.
Qed.

Lemma run_keeps_block ops id : forall s s',
  0 <= id ->
  Forall (leaves_block id) ops ->
  run ops s = Some s' ->
  blocks s' !! Z.to_nat id = blocks s !! Z.to_nat id.
Proof.
  induction ops as [|o ops IH]; simpl; intros s s' Hid Hall Hrun.
  - by injection Hrun as <-.
  - destruct (step s o) as [s1|] eqn:Hstep; [|discriminate].
    apply Forall_cons in Hall as [Ho Hall].
    rewrite (IH s1 s') by done. by apply (step_keeps_block s o s1).
Qed.

(** X3: what was written to a user block stays there until the next write
    to that block.  After a write of a [BLOCK_SIZE]-byte payload [B], any
    sequence of calls with no write to the same id (allocations, requests
    and releases of any block, this one included, reads, writes to other
    blocks), a read of the block still delivers [B]. *)
Theorem written_data_persists (s s1 s2 : block_store_t) (id : Z)
    (B B2 : list byte) (ops : list op) :
  wf_store s ->
  0 <= id < BLOCK_COUNT - 1 ->
  Z.of_nat (length B) = BLOCK_SIZE ->
  block_store_write (Some s) id (Some B) = WriteDone BLOCK_SIZE (Some s1) ->
  Forall (leaves_block id) ops ->
  run ops s1 = Some s2 ->
  block_store_read (Some s2) id (Some B2)
    = ReadDone BLOCK_SIZE (Some s2) (Some (B ++ drop (Z.to_nat BLOCK_SIZE) B2)).
Proof.
  intros Hwf Hid HB Hw Hops Hrun.
  destruct (bs_slot_user s id Hwf Hid) as (b & Hb & Hslot).
  unfold block_store_write in Hw. rewrite Hslot in Hw.
  assert (Hguard : (BLOCK_COUNT - 1 <? id) = false) by lia.
  rewrite Hguard in Hw. injection Hw as <-.
  pose proof (run_keeps_block ops id _ _ (proj1 Hid) Hops Hrun) as Hkeep.
  cbn [blocks] in Hkeep.
  rewrite list_lookup_insert_eq in Hkeep by (eapply lookup_lt_Some; eauto).
  unfold block_store_read. rewrite Hguard. unfold bs_slot.
  assert ((id =? BLOCK_COUNT - 1) = false) as -> by lia.
  rewrite Hkeep. cbn [fmap option_fmap option_map]. do 2 f_equal.
  unfold memcpy. f_equal. rewrite (take_ge B) by lia.
  apply take_app_length'. lia.
Qed.

Lemma written_data_persists_witness :
  block_store_read
    (Some {| blocks := <[2%nat := replicate 256 "170"%byte]>
                         (<[1%nat := replicate 256 "255"%byte]> (blocks sample_store));
             bitmap := {| bit_count := 256; data := [1] ++ replicate 30 0 ++ [128] |} |})
    1 (Some zero_block)
  = ReadDone 256
      (Some {| blocks := <[2%nat := replicate 256 "170"%byte]>
                           (<[1%nat := replicate 256 "255"%byte]> (blocks sample_store));
               bitmap := {| bit_count := 256; data := [1] ++ replicate 30 0 ++ [128] |} |})
      (Some (replicate 256 "255"%byte)).
Proof.
  apply (written_data_persists sample_store
           {| blocks := <[1%nat := replicate 256 "255"%byte]> (blocks sample_store);
              bitmap := bitmap sample_store |}
           _ 1 (replicate 256 "255"%byte) zero_block
           [OpRequest 1; OpRelease 1; OpAllocate;
            OpWrite 2 (Some (replicate 256 "170"%byte)); OpRead 1 (Some zero_block)]).
  - exact wf_sample_store.
  - unfold BLOCK_COUNT. lia.
  - reflexivity.
  - vm_compute. reflexivity.
  - repeat constructor; simpl; lia.
  - vm_compute. reflexivity.
Defined.

End TransferMore.

Section AllocationMore.

Implicit Types (s : block_store_t) (bs : option block_store_t) (id : Z).

Lemma ffz_from_none (bm : bitmap_t) (n : nat) (i : Z) :
  i + Z.of_nat n <= SIZE_MAX ->
  ffz_from bm i n = SIZE_MAX ->
  forall k, i <= k < i + Z.of_nat n -> bitmap_test bm k = true.
Proof.
  intros Hn Hnone k Hk. destruct (bitmap_test bm k) eqn:Ht; [reflexivity|].
  destruct (ffz_from_first_clear bm n i k Hk Ht) as (Hr & _). lia.
Qed.

Lemma count_from_all_set (bm : bitmap_t) (n : nat) : forall i,
  (forall k, i <= k < i + Z.of_nat n -> bitmap_test bm k = true) ->
  count_from bm i n = Z.of_nat n.
Proof.
  induction n as [|n IH]; intros i Hall; [reflexivity|].
  cbn [count_from]. rewrite Hall by lia. rewrite IH; [lia|].
  intros k Hk. apply Hall. lia.
Qed.

(** The id a successful block_store_allocate returns had its bit clear. *)
Lemma allocate_was_clear s (x : Z) bs' :
  block_store_allocate (Some s) = (x, bs') ->
  x <> SIZE_MAX ->
  x = bitmap_ffz (bitmap s) /\
  bitmap_test (bitmap s) x = false /\
  bs' = Some {| blocks := blocks s; bitmap := bitmap_set (bitmap s) x |}.
Proof.
  intros Halloc Hx. unfold block_store_allocate in Halloc.
  destruct (bitmap_ffz (bitmap s) =? SIZE_MAX) eqn:E;
    injection Halloc as Hx' Hs1; [congruence|]. subst x bs'.
  split; [reflexivity|]. split; [|reflexivity].
  destruct (ffz_from_cases (bitmap s) (Z.to_nat (bit_count (bitmap s))) 0)
    as [H|[_ Hc]]; [done | exact Hc].
Qed.

(** X4: block_store_release undoes a block_store_request that succeeded and
    a block_store_allocate that returned an id: the store after the release
    is the store before the block was taken. *)
Theorem release_undoes (s s' : block_store_t) (x : Z) :
  block_store_request (Some s) x = (true, Some s') \/
  (block_store_allocate (Some s) = (x, Some s') /\ x <> SIZE_MAX) ->
  block_store_release (Some s') x = Some s.
Proof.
  intros [Hreq | [Halloc Hx]].
  - unfold block_store_request in Hreq.
    destruct (BLOCK_COUNT - 1 <? x); [discriminate|].
    destruct (bitmap_test (bitmap s) x) eqn:Ht; simpl in Hreq; [discriminate|].
    injection Hreq as <-. unfold block_store_release. cbn [blocks bitmap].
    rewrite reset_set_clear by done. by destruct s.
  - destruct (allocate_was_clear s x _ Halloc Hx) as (_ & Ht & [= ->]).
    unfold block_store_release. cbn [blocks bitmap].
    rewrite reset_set_clear by done. by destruct s.
Qed.

Lemma release_undoes_witness :
  block_store_release
    (Some {| blocks := blocks sample_store;
             bitmap := {| bit_count := 256; data := [32] ++ replicate 30 0 ++ [128] |} |}) 5
  = Some sample_store.
Proof.
  apply (release_undoes sample_store). left. vm_compute. reflexivity.
Defined.

Lemma allocate_then_request s (x : Z) bs' :
  wf_store s ->
  block_store_allocate (Some s) = (x, bs') ->
  x <> SIZE_MAX ->
  block_store_request (Some s) x = (true, bs').
Proof.
  intros Hwf Halloc Hx.
  destruct (allocate_was_clear s x _ Halloc Hx) as (Hffz & Ht & ->).
  assert (Hr : 0 <= x < BLOCK_COUNT).
  { destruct (ffz_from_cases (bitmap s) (Z.to_nat (bit_count (bitmap s))) 0)
      as [H|[Hr _]]; fold (bitmap_ffz (bitmap s)) in *; [congruence|].
    destruct Hwf as (_ & Hn & _). rewrite Hn in Hr. unfold BLOCK_COUNT in *. lia. }
  unfold block_store_request.
  assert ((BLOCK_COUNT - 1 <? x) = false) as -> by lia.
  by rewrite Ht.
Qed.

(** X5: block_store_allocate does what block_store_request does for the id
    it picks: when it returns an id, a request for that id on the same store
    succeeds and leaves the same store. *)
Theorem allocate_is_request (s : block_store_t) (x : Z) (bs' : option block_store_t) :
  wf_store s ->
  block_store_allocate (Some s) = (x, bs') ->
  x <> SIZE_MAX ->
  block_store_request (Some s) x = (true, bs').
Proof. apply allocate_then_request. Qed.

Lemma allocate_is_request_witness :
  block_store_request (Some sample_store) 0
  = (true, Some {| blocks := blocks sample_store;
                   bitmap := {| bit_count := 256; data := [1] ++ replicate 30 0 ++ [128] |} |}).
Proof.
  apply (allocate_is_request sample_store 0).
  - exact wf_sample_store.
  - vm_compute. reflexivity.
  - discriminate.
Defined.

(** X6: block_store_allocate returns [SIZE_MAX] exactly when
    block_store_get_free_blocks returns 0; any other value it returns is an
    index below [BLOCK_COUNT], and below [BLOCK_COUNT - 1] when the reserved
    bit is set: the slot of the bitmap is then never handed out. *)
Theorem allocate_fails_iff_full (s : block_store_t) :
  wf_store s ->
  (fst (block_store_allocate (Some s)) = SIZE_MAX <->
     block_store_get_free_blocks (Some s) = 0) /\
  (fst (block_store_allocate (Some s)) <> SIZE_MAX ->
     0 <= fst (block_store_allocate (Some s)) < BLOCK_COUNT) /\
  (bitmap_test (bitmap s) (BLOCK_COUNT - 1) = true ->
     fst (block_store_allocate (Some s)) <> BLOCK_COUNT - 1).
Proof.
  intros Hwf. pose proof Hwf as (Hlen & Hn & Hd).
  assert (Hcases : bitmap_ffz (bitmap s) = SIZE_MAX \/
                   (0 <= bitmap_ffz (bitmap s) < BLOCK_COUNT /\
                    bitmap_test (bitmap s) (bitmap_ffz (bitmap s)) = false)).
  { destruct (ffz_from_cases (bitmap s) (Z.to_nat (bit_count (bitmap s))) 0)
      as [H|[Hr Hc]]; fold (bitmap_ffz (bitmap s)) in *; [by left|].
    right. rewrite Hn in Hr. unfold BLOCK_COUNT in *. split; [lia | done]. }
  assert (Hfst : fst (block_store_allocate (Some s)) = bitmap_ffz (bitmap s)).
  { unfold block_store_allocate.
    destruct (bitmap_ffz (bitmap s) =? SIZE_MAX) eqn:E; simpl; lia. }
  rewrite Hfst. split; [|split].
  - split.
    + intros Hnone. unfold block_store_get_free_blocks, bitmap_total_set.
      rewrite count_from_all_set; [rewrite Hn; reflexivity|].
      apply ffz_from_none; [rewrite Hn; vm_compute; discriminate | exact Hnone].
    + intros Hzero. apply ffz_full. intros k Hk.
      unfold block_store_get_free_blocks, size_t_wrap in Hzero.
      pose proof (total_set_bounds (bitmap s)) as Hb. rewrite Hn in Hb.
      unfold BLOCK_COUNT, SIZE_MAX in *. rewrite Z.mod_small in Hzero by lia.
      apply (count_from_full (bitmap s) (Z.to_nat (bit_count (bitmap s))) 0).
      * fold (bitmap_total_set (bitmap s)). rewrite Hn. lia.
      * lia.
  - intros Hne. destruct Hcases as [H|[Hr _]]; [congruence | exact Hr].
  - intros Hres Heq. destruct Hcases as [H|[_ Hc]].
    + rewrite H in Heq. discriminate Heq.
    + rewrite Heq in Hc. congruence.
Qed.

Lemma allocate_fails_iff_full_witness :
  fst (block_store_allocate (Some sample_store)) <> BLOCK_COUNT - 1.
Proof.
  destruct (allocate_fails_iff_full sample_store wf_sample_store) as (_ & _ & H).
  apply H. reflexivity.
Defined.

End AllocationMore.

Section CountingMore.

Implicit Types (s : block_store_t) (bs : option block_store_t) (id : Z).

Lemma counts_after_set s (x : Z) :
  wf_store s ->
  bitmap_test (bitmap s) (BLOCK_COUNT - 1) = true ->
  0 <= x < BLOCK_COUNT ->
  bitmap_test (bitmap s) x = false ->
  block_store_get_used_blocks
    (Some {| blocks := blocks s; bitmap := bitmap_set (bitmap s) x |})
    = block_store_get_used_blocks (Some s) + 1 /\
  block_store_get_free_blocks
    (Some {| blocks := blocks s; bitmap := bitmap_set (bitmap s) x |})
    = block_store_get_free_blocks (Some s) - 1.
Proof.
  intros Hwf Hres Hx Hclear. pose proof Hwf as (_ & Hn & _).
  assert (Hres' : bitmap_test (bitmap_set (bitmap s) x) (BLOCK_COUNT - 1) = true).
  { rewrite test_set_ne; [done|]. intros ->. congruence. }
  destruct (counts_exact s Hn Hres) as (-> & -> & _).
  destruct (counts_exact {| blocks := blocks s; bitmap := bitmap_set (bitmap s) x |})
    as (-> & -> & _); cbn [bitmap]; [by rewrite bit_count_set | done |].
  rewrite total_set_set; [lia | by apply wf_store_bitmap | by rewrite Hn | done].
Qed.

(** X7: on a store whose reserved bit is set, taking a block (the id is
    unsigned), by a block_store_request that succeeds or a
    block_store_allocate that returns an id, adds one to what block_store_get_used_blocks returns and
    takes one off what block_store_get_free_blocks returns. *)
Theorem taking_a_block_counts (s s' : block_store_t) (x : Z) :
  wf_store s ->
  bitmap_test (bitmap s) (BLOCK_COUNT - 1) = true ->
  0 <= x ->
  block_store_request (Some s) x = (true, Some s') \/
  (block_store_allocate (Some s) = (x, Some s') /\ x <> SIZE_MAX) ->
  block_store_get_used_blocks (Some s') = block_store_get_used_blocks (Some s) + 1 /\
  block_store_get_free_blocks (Some s') = block_store_get_free_blocks (Some s) - 1.
Proof.
  intros Hwf Hres Hx0 Htake.
  assert (Hreq : block_store_request (Some s) x = (true, Some s')).
  { destruct Htake as [H|[Ha Hx]]; [exact H | by apply allocate_then_request]. }
  unfold block_store_request in Hreq.
  destruct (BLOCK_COUNT - 1 <? x) eqn:Hg; [discriminate|].
  destruct (bitmap_test (bitmap s) x) eqn:Ht; simpl in Hreq; [discriminate|].
  injection Hreq as <-.
  apply counts_after_set; [done | done | lia | done].
Qed.

Lemma taking_a_block_counts_witness :
  block_store_get_used_blocks
    (Some {| blocks := blocks sample_store;
             bitmap := {| bit_count := 256; data := [1] ++ replicate 30 0 ++ [128] |} |})
  = block_store_get_used_blocks (Some sample_store) + 1.
Proof.
  apply (taking_a_block_counts sample_store _ 0).
  - exact wf_sample_store.
  - reflexivity.
  - lia.
  - right. split; [vm_compute; reflexivity | discriminate].
Defined.

(** X8: on a store whose reserved bit is set, block_store_release of a user
    block that is taken takes one off the used count and adds one to the
    free count; the release of a block that is free changes neither. *)
Theorem release_counts (s : block_store_t) (id : Z) :
  wf_store s ->
  bitmap_test (bitmap s) (BLOCK_COUNT - 1) = true ->
  id <> BLOCK_COUNT - 1 ->
  block_store_get_used_blocks (block_store_release (Some s) id)
    = block_store_get_used_blocks (Some s)
      - (if bitmap_test (bitmap s) id then 1 else 0) /\
  block_store_get_free_blocks (block_store_release (Some s) id)
    = block_store_get_free_blocks (Some s)
      + (if bitmap_test (bitmap s) id then 1 else 0).
Proof.
  intros Hwf Hres Hid. pose proof Hwf as (_ & Hn & _).
  destruct (bitmap_test (bitmap s) id) eqn:Ht.
  - unfold block_store_release.
    assert (Hres' : bitmap_test (bitmap_reset (bitmap s) id) (BLOCK_COUNT - 1) = true).
    { by rewrite test_reset_ne. }
    destruct (counts_exact s Hn Hres) as (-> & -> & _).
    destruct (counts_exact {| blocks := blocks s; bitmap := bitmap_reset (bitmap s) id |})
      as (-> & -> & _); cbn [bitmap]; [by rewrite bit_count_reset | done |].
    rewrite total_set_reset by done. lia.
  - unfold block_store_release. rewrite reset_clear_id by done.
    destruct s; cbn [blocks bitmap]. lia.
Qed.

Lemma release_counts_witness :
  block_store_get_used_blocks (block_store_release (Some sample_store) 17)
  = block_store_get_used_blocks (Some sample_store) - 0.
Proof.
  apply (release_counts sample_store 17).
  - exact wf_sample_store.
  - reflexivity.
  - discriminate.
Defined.

(** X9: on a store whose reserved bit is set, what
    block_store_get_used_blocks returns is the number of user block ids
    whose bit is set, and block_store_get_free_blocks returns the number of
    the others: the reserved slot is in neither count. *)
Theorem used_counts_user_blocks (s : block_store_t) :
  wf_store s ->
  bitmap_test (bitmap s) (BLOCK_COUNT - 1) = true ->
  block_store_get_used_blocks (Some s)
    = count_from (bitmap s) 0 (Z.to_nat (BLOCK_COUNT - 1)) /\
  block_store_get_free_blocks (Some s)
    = (BLOCK_COUNT - 1) - count_from (bitmap s) 0 (Z.to_nat (BLOCK_COUNT - 1)).
Proof.
  intros Hwf Hres. pose proof Hwf as (_ & Hn & _).
  destruct (counts_exact s Hn Hres) as (-> & -> & _).
  unfold bitmap_total_set. rewrite Hn.
  change (Z.to_nat BLOCK_COUNT) with (Z.to_nat (BLOCK_COUNT - 1) + 1)%nat.
  rewrite count_from_app. cbn [count_from].
  change (0 + Z.of_nat (Z.to_nat (BLOCK_COUNT - 1))) with (BLOCK_COUNT - 1).
  rewrite Hres. lia.
Qed.

Lemma used_counts_user_blocks_witness :
  block_store_get_used_blocks (Some sample_store)
  = count_from (bitmap sample_store) 0 (Z.to_nat (BLOCK_COUNT - 1)).
Proof.
  apply (used_counts_user_blocks sample_store); [exact wf_sample_store | reflexivity].
Defined.

End CountingMore.

Section Sequences.

Implicit Types (s : block_store_t) (bs : option block_store_t) (id : Z).

(** X10: along every sequence of calls on the store block_store_create
    returned in which the reserved index is not released, the store stays
    well formed, the reserved bit stays set, and used and free counts are
    numbers between 0 and [BLOCK_COUNT - 1] that add up to it. *)
Theorem reserved_bit_kept (heap : nat -> block) (s0 s : block_store_t) (ops : list op) :
  block_store_create heap = Some s0 ->
  ~ In (OpRelease (BLOCK_COUNT - 1)) ops ->
  run ops s0 = Some s ->
  wf_store s /\
  bitmap_test (bitmap s) (BLOCK_COUNT - 1) = true /\
  0 <= block_store_get_used_blocks (Some s) <= BLOCK_COUNT - 1 /\
  0 <= block_store_get_free_blocks (Some s) <= BLOCK_COUNT - 1 /\
  block_store_get_used_blocks (Some s) + block_store_get_free_blocks (Some s)
    = BLOCK_COUNT - 1.
Proof.
  intros Hc Hnot Hrun.
  destruct (create_returns heap) as (s0' & Hc' & Hwf0 & Hres0 & _).
  rewrite Hc in Hc'. injection Hc' as <-.
  assert (Hwf : wf_store s) by (eapply run_wf; eauto).
  assert (Hres : bitmap_test (bitmap s) (BLOCK_COUNT - 1) = true).
  { apply (run_keeps_bit ops (BLOCK_COUNT - 1) s0 s); auto. unfold BLOCK_COUNT. lia. }
  split; [exact Hwf|]. split; [exact Hres|].
  pose proof Hwf as (_ & Hn & _).
  destruct (counts_exact s Hn Hres) as (Hu & Hf & Hb). lia.
Qed.

Lemma reserved_bit_kept_witness :
  exists s,
    run [OpAllocate; OpRequest 255; OpRelease 0; OpRelease 300; OpAllocate] sample_store
      = Some s /\
    bitmap_test (bitmap s) (BLOCK_COUNT - 1) = true.
Proof.
  eexists. split; [vm_compute; reflexivity|].
  eapply (reserved_bit_kept zero_heap sample_store _
            [OpAllocate; OpRequest 255; OpRelease 0; OpRelease 300; OpAllocate]).
  - exact create_zero_heap.
  - intros [H|[H|[H|[H|[H|[]]]]]]; discriminate H.
  - vm_compute. reflexivity.
Defined.

(** X11: no block is handed out twice.  Once block_store_allocate has
    returned the id [x], no later block_store_allocate returns [x] and no
    later block_store_request for [x] succeeds, until [x] is released. *)
Theorem no_double_allocation (s s1 s2 : block_store_t) (x : Z) (ops : list op) :
  wf_store s ->
  block_store_allocate (Some s) = (x, Some s1) ->
  x <> SIZE_MAX ->
  ~ In (OpRelease x) ops ->
  run ops s1 = Some s2 ->
  fst (block_store_allocate (Some s2)) <> x /\
  fst (block_store_request (Some s2) x) = false.
Proof.
  intros Hwf Halloc Hx Hnot Hrun.
  destruct (allocate_returns s x s1 Hwf Halloc Hx) as (Hrange & _ & Hs1 & Hset).
  assert (Hwf1 : wf_store s1) by (subst s1; by apply wf_store_with_set).
  assert (Hset2 : bitmap_test (bitmap s2) x = true).
  { by apply (run_keeps_bit ops x s1 s2). }
  split; [|by rewrite request_taken].
  intros Heq.
  destruct (block_store_allocate (Some s2)) as [y bs'] eqn:Ha. simpl in Heq. subst y.
  destruct (allocate_was_clear s2 x bs' Ha Hx) as (_ & Hclear & _). congruence.
Qed.

Lemma no_double_allocation_witness :
  fst (block_store_allocate
         (Some {| blocks := blocks sample_store;
                  bitmap := {| bit_count := 256; data := [5] ++ replicate 30 0 ++ [128] |} |}))
  <> 0.
Proof.
  apply (no_double_allocation sample_store
           {| blocks := blocks sample_store;
              bitmap := {| bit_count := 256; data := [1] ++ replicate 30 0 ++ [128] |} |}
           _ 0 [OpAllocate; OpRequest 2; OpRelease 1]).
  - exact wf_sample_store.
  - vm_compute. reflexivity.
  - discriminate.
  - intros [H|[H|[H|[]]]]; discriminate H.
  - vm_compute. reflexivity.
Defined.

End Sequences.

Section Filling.

Implicit Types (s : block_store_t) (bs : option block_store_t) (id : Z).

(** The user blocks below [m] are taken, the others are free, and the
    reserved bit is set. *)
Definition filled_to (m : Z) (s : block_store_t) : Prop :=
  wf_store s /\
  forall k, 0 <= k < BLOCK_COUNT ->
    bitmap_test (bitmap s) k = (k <? m) || (k =? BLOCK_COUNT - 1).

Lemma create_filled heap s : block_store_create heap = Some s -> filled_to 0 s.
Proof.
  intros Hc. destruct (create_returns heap) as (s' & Hc' & Hwf & Hres & Hfree).
  rewrite Hc in Hc'. injection Hc' as <-. split; [exact Hwf|].
  intros k Hk. destruct (decide (k = BLOCK_COUNT - 1)) as [->|Hne].
  - rewrite Hres. reflexivity.
  - rewrite Hfree by done. lia.
Qed.

Lemma allocate_filled (m : Z) s :
  filled_to m s -> 0 <= m < BLOCK_COUNT - 1 ->
  exists s', block_store_allocate (Some s) = (m, Some s') /\ filled_to (m + 1) s'.
Proof.
  intros [Hwf Hbits] Hm. pose proof Hwf as (_ & Hn & _).
  assert (Hclear : bitmap_test (bitmap s) m = false).
  { rewrite Hbits by lia. lia. }
  destruct (ffz_lowest (bitmap s) m) as (Hr & Hc & Hlow); [rewrite Hn; lia | done |].
  assert (Hffz : bitmap_ffz (bitmap s) = m).
  { destruct (decide (bitmap_ffz (bitmap s) = m)) as [|Hne]; [done|].
    rewrite Hbits in Hc by lia. lia. }
  eexists. unfold block_store_allocate. rewrite Hffz.
  assert ((m =? SIZE_MAX) = false) as -> by (pose proof SIZE_MAX_big; lia).
  split; [reflexivity|]. split; [by apply wf_store_with_set|].
  intros k Hk. cbn [bitmap]. destruct (decide (k = m)) as [->|Hne].
  - rewrite test_set_eq; [lia | by apply wf_store_bitmap | rewrite Hn; lia].
  - rewrite test_set_ne by congruence. rewrite Hbits by done. lia.
Qed.

Lemma allocate_many_filled (n : nat) : forall (m : Z) s,
  filled_to m s -> 0 <= m -> m + Z.of_nat n <= BLOCK_COUNT - 1 ->
  exists s', allocate_many n (Some s) = (seqZ m (Z.of_nat n), Some s') /\
             filled_to (m + Z.of_nat n) s'.
Proof.
  induction n as [|n IH]; intros m s Hfill Hm Hle.
  - exists s. split; [reflexivity|]. by rewrite Z.add_0_r.
  - destruct (allocate_filled m s Hfill) as (s1 & Ha & Hfill1); [lia|].
    destruct (IH (m + 1) s1 Hfill1) as (s' & Hmany & Hfill'); [lia | lia |].
    exists s'. cbn [allocate_many]. rewrite Ha, Hmany.
    split.
    + rewrite (seqZ_cons m (Z.of_nat (S n))) by lia.
      replace (Z.pred (Z.of_nat (S n))) with (Z.of_nat n) by lia.
      reflexivity.
    + replace (m + Z.of_nat (S n)) with (m + 1 + Z.of_nat n) by lia. exact Hfill'.
Qed.

Lemma filled_counts (m : Z) s :
  filled_to m s -> 0 <= m <= BLOCK_COUNT - 1 ->
  block_store_get_used_blocks (Some s) = m /\
  block_store_get_free_blocks (Some s) = BLOCK_COUNT - 1 - m.
Proof.
  intros [Hwf Hbits] Hm.
  assert (Hres : bitmap_test (bitmap s) (BLOCK_COUNT - 1) = true).
  { rewrite Hbits by (unfold BLOCK_COUNT; lia). lia. }
  pose proof Hwf as (_ & Hn & _).
  destruct (counts_exact s Hn Hres) as (-> & -> & _).
  assert (Ht : bitmap_total_set (bitmap s) = m + 1); [|lia].
  unfold bitmap_total_set. rewrite Hn.
  replace (Z.to_nat BLOCK_COUNT)
    with (Z.to_nat m + (Z.to_nat (BLOCK_COUNT - 1 - m) + 1))%nat by (unfold BLOCK_COUNT in *; lia).
  rewrite !count_from_app. cbn [count_from].
  rewrite count_from_all_set, count_from_all_clear.
  - replace (0 + Z.of_nat (Z.to_nat m) + Z.of_nat (Z.to_nat (BLOCK_COUNT - 1 - m)))
      with (BLOCK_COUNT - 1) by lia.
    rewrite Hres. lia.
  - intros k Hk. rewrite Hbits by (unfold BLOCK_COUNT in *; lia). lia.
  - intros k Hk. rewrite Hbits by (unfold BLOCK_COUNT in *; lia). lia.
Qed.

(** X12: on the store block_store_create returned, [n] calls of
    block_store_allocate in a row ([n] up to [BLOCK_COUNT - 1]) return the
    ids 0, 1, ..., [n - 1] in this order and leave [n] blocks used and
    [BLOCK_COUNT - 1 - n] free; after [BLOCK_COUNT - 1] of them the next
    call returns [SIZE_MAX] and leaves the store as it is. *)
Theorem allocate_in_order (heap : nat -> block) (n : nat) :
  Z.of_nat n <= BLOCK_COUNT - 1 ->
  exists s0 s,
    block_store_create heap = Some s0 /\
    allocate_many n (Some s0) = (seqZ 0 (Z.of_nat n), Some s) /\
    block_store_get_used_blocks (Some s) = Z.of_nat n /\
    block_store_get_free_blocks (Some s) = BLOCK_COUNT - 1 - Z.of_nat n /\
    (Z.of_nat n = BLOCK_COUNT - 1 ->
     block_store_allocate (Some s) = (SIZE_MAX, Some s)).
Proof.
  intros Hn. destruct (create_returns heap) as (s0 & Hc & _).
  pose proof (create_filled heap s0 Hc) as Hfill0.
  destruct (allocate_many_filled n 0 s0 Hfill0) as (s & Hmany & Hfill); [lia | lia |].
  rewrite Z.add_0_l in Hfill.
  destruct (filled_counts _ s Hfill) as [Hu Hf]; [lia|].
  exists s0, s. split; [exact Hc|]. split; [exact Hmany|].
  split; [exact Hu|]. split; [exact Hf|].
  intros Hfull. destruct Hfill as [Hwf Hbits]. pose proof Hwf as (_ & Hbc & _).
  unfold block_store_allocate. rewrite ffz_full.
  - by rewrite Z.eqb_refl.
  - intros k Hk. rewrite Hbc in Hk. rewrite Hbits by done. lia.
Qed.

Lemma allocate_in_order_witness :
  exists s0 s,
    block_store_create zero_heap = Some s0 /\
    allocate_many 3 (Some s0) = ([0; 1; 2], Some s) /\
    block_store_get_used_blocks (Some s) = 3.
Proof.
  destruct (allocate_in_order zero_heap 3) as (s0 & s & Hc & Hmany & Hu & _).
  - unfold BLOCK_COUNT. lia.
  - exists s0, s. split; [exact Hc|]. split; [exact Hmany | exact Hu].
Defined.

(** X13: the lowest free block is reused first.  After
    block_store_release of an id [id] below [BLOCK_COUNT], the next
    block_store_allocate returns the smaller of [id] and what it would have
    returned before the release. *)
Theorem allocate_after_release (s : block_store_t) (id : Z) :
  wf_store s ->
  0 <= id < BLOCK_COUNT ->
  fst (block_store_allocate (block_store_release (Some s) id))
    = Z.min id (fst (block_store_allocate (Some s))).
Proof.
  intros Hwf Hid. pose proof Hwf as (_ & Hn & _).
  assert (Hfst : forall s0, fst (block_store_allocate (Some s0)) = bitmap_ffz (bitmap s0)).
  { intros s0. unfold block_store_allocate.
    destruct (bitmap_ffz (bitmap s0) =? SIZE_MAX) eqn:E; simpl; lia. }
  unfold block_store_release. rewrite !Hfst. cbn [bitmap].
  set (bm' := bitmap_reset (bitmap s) id).
  assert (Hn' : bit_count bm' = BLOCK_COUNT) by (unfold bm'; by rewrite bit_count_reset).
  destruct (ffz_lowest bm' id) as (Hr & Hc & Hlow);
    [lia | apply test_reset_eq |].
  assert (Hsame : forall k, k <> id -> bitmap_test bm' k = bitmap_test (bitmap s) k).
  { intros k Hk. apply test_reset_ne. congruence. }
  pose proof SIZE_MAX_big as Hbig.
  destruct (ffz_from_cases (bitmap s) (Z.to_nat (bit_count (bitmap s))) 0)
    as [Hnone|[Hr0 Hc0]]; fold (bitmap_ffz (bitmap s)) in *.
  - (* the store was full: only [id] is free now *)
    rewrite Hnone.
    assert (Hall : forall k, 0 <= k < BLOCK_COUNT -> bitmap_test (bitmap s) k = true).
    { intros k Hk. apply (ffz_from_none (bitmap s) (Z.to_nat (bit_count (bitmap s))) 0);
        [rewrite Hn; unfold BLOCK_COUNT in *; lia | done | rewrite Hn; lia]. }
    destruct (decide (bitmap_ffz bm' = id)) as [->|Hne]; [lia|].
    rewrite Hsame in Hc by done. rewrite Hall in Hc by lia. discriminate.
  - rewrite Hn in Hr0.
    destruct (ffz_lowest (bitmap s) (bitmap_ffz (bitmap s))) as (_ & _ & Hlow0);
      [rewrite Hn; lia | done |].
    destruct (decide (bitmap_ffz bm' = id)) as [Heq|Hne].
    + (* [id] is the lowest clear bit now, so nothing below it was clear *)
      rewrite Heq. destruct (decide (bitmap_ffz (bitmap s) < id)) as [Hlt|]; [|lia].
      assert (bitmap_test bm' (bitmap_ffz (bitmap s)) = true) as Habs
        by (apply Hlow; lia).
      rewrite Hsame in Habs by lia. congruence.
    + (* a bit below [id] is clear, before and after *)
      rewrite Hsame in Hc by done.
      assert (bitmap_ffz (bitmap s) <= bitmap_ffz bm').
      { destruct (decide (bitmap_ffz (bitmap s) <= bitmap_ffz bm')) as [|Hgt]; [done|].
        rewrite Hlow0 in Hc by lia. discriminate. }
      assert (bitmap_ffz bm' <= bitmap_ffz (bitmap s)).
      { destruct (decide (bitmap_ffz bm' <= bitmap_ffz (bitmap s))) as [|Hgt]; [done|].
        assert (bitmap_test bm' (bitmap_ffz (bitmap s)) = true) as Habs
          by (apply Hlow; lia).
        rewrite Hsame in Habs by lia. congruence. }
      lia.
Qed.

Lemma allocate_after_release_witness :
  fst (block_store_allocate
         (block_store_release
            (Some {| blocks := blocks sample_store;
                     bitmap := {| bit_count := 256; data := [255; 3] ++ replicate 29 0 ++ [128] |} |})
            4))
  = 4.
Proof.
  rewrite (allocate_after_release
             {| blocks := blocks sample_store;
                bitmap := {| bit_count := 256; data := [255; 3] ++ replicate 29 0 ++ [128] |} |} 4).
  - reflexivity.
  - unfold wf_store. repeat split; vm_compute; reflexivity.
  - unfold BLOCK_COUNT. lia.
Defined.

End Filling.

Section BlockSizes.

Implicit Types (s : block_store_t) (bs : option block_store_t) (id : Z).

(** Every block of the store has [BLOCK_SIZE] bytes. *)
Definition blocks_sized (s : block_store_t) : Prop :=
  Forall (fun b : block => Z.of_nat (length b) = BLOCK_SIZE) (blocks s).

(** A write call whose buffer holds at least [BLOCK_SIZE] bytes, as the
    [memcpy] in block_store_write needs. *)
Definition buffer_suffices (o : op) : Prop :=
  match o with
  | OpWrite _ (Some buf) => BLOCK_SIZE <= Z.of_nat (length buf)
  | _ => True
  end.

Lemma memcpy_length (dst src : list byte) :
  Z.of_nat (length dst) = BLOCK_SIZE ->
  BLOCK_SIZE <= Z.of_nat (length src) ->
  Z.of_nat (length (memcpy dst src BLOCK_SIZE)) = BLOCK_SIZE.
Proof.
  intros Hd Hs. unfold memcpy. rewrite length_app, length_take, length_drop.
  unfold BLOCK_SIZE in *. lia.
Qed.

Lemma step_blocks_sized s o s' :
  blocks_sized s -> buffer_suffices o -> step s o = Some s' -> blocks_sized s'.
Proof.
  intros Hs Hbuf Hstep.
  destruct o as [|i|i| | |i buf|i buf]; unfold step in Hstep.
  - unfold block_store_allocate in Hstep.
    destruct (bitmap_ffz (bitmap s) =? SIZE_MAX); simpl in Hstep; by injection Hstep as <-.
  - unfold block_store_request in Hstep.
    destruct (BLOCK_COUNT - 1 <? i); simpl in Hstep; [by injection Hstep as <-|].
    destruct (negb (bitmap_test (bitmap s) i)); simpl in Hstep; by injection Hstep as <-.
  - simpl in Hstep. by injection Hstep as <-.
  - by injection Hstep as <-.
  - by injection Hstep as <-.
  - rewrite read_store_same in Hstep. by injection Hstep as <-.
  - unfold block_store_write in Hstep.
    destruct buf as [buf|]; [|by injection Hstep as <-].
    destruct (BLOCK_COUNT - 1 <? i); [by injection Hstep as <-|].
    unfold bs_slot in Hstep. destruct (i =? BLOCK_COUNT - 1); [discriminate|].
    destruct (blocks s !! Z.to_nat i) as [b|] eqn:Hb; simpl in Hstep;
      [|by injection Hstep as <-].
    injection Hstep as <-. unfold blocks_sized. cbn [blocks].
    apply Forall_insert; [exact Hs|].
    apply memcpy_length; [|exact Hbuf].
    unfold blocks_sized in Hs. rewrite Forall_lookup in Hs. by apply (Hs (Z.to_nat i)).
Qed.

(** X14: the blocks keep their size.  When [malloc] delivered
    [BLOCK_SIZE]-byte blocks and every write is given a buffer of at least
    [BLOCK_SIZE] bytes, every block of every store the calls lead to has
    exactly [BLOCK_SIZE] bytes, and there are [BLOCK_COUNT - 1] of them. *)
Theorem block_sizes_kept (heap : nat -> block) (s0 s : block_store_t) (ops : list op) :
  (forall i, Z.of_nat (length (heap i)) = BLOCK_SIZE) ->
  block_store_create heap = Some s0 ->
  Forall buffer_suffices ops ->
  run ops s0 = Some s ->
  blocks_sized s /\ Z.of_nat (length (blocks s)) = BLOCK_COUNT - 1.
Proof.
  intros Hheap Hc Hops Hrun. split.
  - assert (H0 : blocks_sized s0).
    { unfold block_store_create in Hc.
      destruct (bitmap_create BLOCK_COUNT) as [bm0|]; [|discriminate].
      apply (inj Some) in Hc. subst s0. unfold blocks_sized. cbn [blocks].
      apply Forall_forall. intros blk Hb. apply list_elem_of_In, in_map_iff in Hb.
      destruct Hb as (i & <- & _). apply Hheap. }
    clear Hc. revert s0 H0 Hrun.
    induction ops as [|o ops IH]; simpl; intros s0 H0 Hrun.
    + by injection Hrun as <-.
    + destruct (step s0 o) as [s1|] eqn:Hstep; [|discriminate].
      apply Forall_cons in Hops as [Ho Hops].
      apply (IH Hops s1); [|exact Hrun]. by apply (step_blocks_sized s0 o).
  - assert (Hwf : wf_store s); [|apply Hwf].
    apply reachable_wf. by exists heap, s0, ops.
Qed.

Lemma block_sizes_kept_witness :
  exists s,
    run [OpWrite 0 (Some (replicate 300 "001"%byte)); OpAllocate; OpWrite 254 (Some zero_block)]
      sample_store = Some s /\
    blocks_sized s.
Proof.
  eexists. split; [vm_compute; reflexivity|].
  eapply (block_sizes_kept zero_heap sample_store _
            [OpWrite 0 (Some (replicate 300 "001"%byte)); OpAllocate;
             OpWrite 254 (Some zero_block)]).
  - intros i. reflexivity.
  - exact create_zero_heap.
  - repeat constructor; simpl; unfold BLOCK_SIZE; lia.
  - vm_compute. reflexivity.
Defined.

End BlockSizes.

(** ** Memory handed out and given back *)

Section MemoryFacts.

Import Memory.

Implicit Types (h : gset nat) (l : list nat) (a : nat).

Lemma malloc_blocks_spec (n : nat) : forall h l h',
  malloc_blocks n h = (l, h') ->
  h' = list_to_set l ∪ h /\ NoDup l /\ length l = n /\ (forall a, a ∈ l -> a ∉ h).
Proof.
  induction n as [|n IH]; intros h l h' Hm; simpl in Hm.
  - injection Hm as <- <-. split; [|split; [|split]].
    + simpl. by rewrite union_empty_l_L.
    + constructor.
    + reflexivity.
    + intros a Ha. by apply elem_of_nil in Ha.
  - destruct (malloc_blocks n ({[fresh h]} ∪ h)) as [l1 h1] eqn:Hrec.
    injection Hm as <- <-.
    destruct (IH _ _ _ Hrec) as (-> & Hnd & Hlen & Hfresh).
    pose proof (is_fresh h) as Hf.
    split; [|split; [|split]].
    + apply set_eq. intros a.
      rewrite !elem_of_union, !elem_of_list_to_set, elem_of_cons, elem_of_singleton. tauto.
    + constructor; [|exact Hnd]. intros Hin. apply Hfresh in Hin.
      apply Hin, elem_of_union_l. by apply elem_of_singleton.
    + simpl. by rewrite Hlen.
    + intros a Ha. apply elem_of_cons in Ha as [->|Ha]; [exact Hf|].
      intros Hah. apply (Hfresh a Ha). by apply elem_of_union_r.
Qed.

Lemma free_blocks_spec l : forall h,
  NoDup l -> (forall a, a ∈ l -> a ∈ h) ->
  free_blocks l h = Some (h ∖ list_to_set l).
Proof.
  induction l as [|a l IH]; intros h Hnd Hin; simpl.
  - f_equal. by rewrite difference_empty_L.
  - apply NoDup_cons in Hnd as [Ha Hnd].
    unfold free. rewrite decide_True by (apply Hin; by left).
    rewrite IH; [| exact Hnd |].
    + f_equal. apply set_eq. intros b.
      rewrite !elem_of_difference, elem_of_union, elem_of_list_to_set, elem_of_singleton.
      tauto.
    + intros b Hb. apply elem_of_difference. split; [apply Hin; by right|].
      rewrite elem_of_singleton. intros ->. done.
Qed.

(** X15: block_store_destroy gives back exactly what block_store_create
    obtained.  Whatever is live before, create obtains [BLOCK_COUNT + 1]
    distinct objects that were not live (the array, the blocks, the bitmap),
    and destroy on its result frees each of them once, with no invalid
    free, and leaves live what was live before create.  A second destroy of
    the same store is an invalid free, and destroy of a null store does
    nothing. *)
Theorem destroy_gives_back (h : gset nat) :
  block_store_destroy (Some (block_store_create_mem h).1) (block_store_create_mem h).2
    = Some h /\
  NoDup (array_addr (block_store_create_mem h).1 :: slot_addrs (block_store_create_mem h).1) /\
  Z.of_nat (length (slot_addrs (block_store_create_mem h).1)) = BLOCK_COUNT /\
  (block_store_create_mem h).2
    = list_to_set (array_addr (block_store_create_mem h).1
                   :: slot_addrs (block_store_create_mem h).1) ∪ h /\
  (forall a, a ∈ array_addr (block_store_create_mem h).1
               :: slot_addrs (block_store_create_mem h).1 -> a ∉ h) /\
  block_store_destroy (Some (block_store_create_mem h).1) h = None /\
  block_store_destroy None h = Some h.
Proof.
  unfold block_store_create_mem, bitmap_create_mem, malloc.
  pose proof (is_fresh h) as Hf0.
  remember (fresh h) as arr eqn:Earr. clear Earr.
  destruct (malloc_blocks (Z.to_nat (BLOCK_COUNT - 1)) ({[arr]} ∪ h))
    as [blks h2] eqn:Hblks.
  destruct (malloc_blocks_spec _ _ _ _ Hblks) as (-> & Hnd & Hlen & Hfresh).
  clear Hblks.
  pose proof (is_fresh (list_to_set blks ∪ ({[arr]} ∪ h))) as Hfb.
  remember (fresh (list_to_set blks ∪ ({[arr]} ∪ h))) as bm eqn:Ebm. clear Ebm.
  cbn [fst snd array_addr slot_addrs].
  rewrite !elem_of_union, elem_of_list_to_set, elem_of_singleton in Hfb.
  assert (Hbm : bm ∉ blks) by tauto.
  assert (Hbm' : bm <> arr) by tauto.
  assert (Hbmh : bm ∉ h) by tauto.
  assert (Harr : arr ∉ blks).
  { intros Hin. apply Hfresh in Hin. apply Hin, elem_of_union_l. by apply elem_of_singleton. }
  assert (Hblksh : forall a, a ∈ blks -> a ∉ h).
  { intros a Ha Hah. apply (Hfresh a Ha). by apply elem_of_union_r. }
  clear Hfresh Hfb.
  assert (Hlook : (blks ++ [bm]) !! Z.to_nat (BLOCK_COUNT - 1) = Some bm).
  { rewrite lookup_app_r by lia. rewrite Hlen, Nat.sub_diag. reflexivity. }
  assert (Htake : take (Z.to_nat (BLOCK_COUNT - 1)) (blks ++ [bm]) = blks).
  { by apply take_app_length'. }
  split; [|split; [|split; [|split; [|split; [|split]]]]].
  - unfold block_store_destroy. cbn [slot_addrs array_addr]. rewrite Hlook, Htake.
    unfold bitmap_destroy_mem, free.
    rewrite decide_True by (apply elem_of_union_l; by apply elem_of_singleton).
    rewrite free_blocks_spec; [| exact Hnd |].
    2:{ intros a Ha. apply elem_of_difference. split.
        - apply elem_of_union_r, elem_of_union_l. by apply elem_of_list_to_set.
        - rewrite elem_of_singleton. intros ->. done. }
    rewrite decide_True.
    2:{ rewrite !elem_of_difference, !elem_of_union, elem_of_list_to_set, !elem_of_singleton.
        split; [split|]; [tauto | congruence | exact Harr]. }
    f_equal. apply set_eq. intros a.
    rewrite !elem_of_difference, !elem_of_union, elem_of_list_to_set, !elem_of_singleton.
    split; [tauto|]. intros Ha. split; [split; [split|]|].
    + tauto.
    + intros ->. done.
    + intros Hin. by apply (Hblksh a).
    + intros ->. done.
  - constructor.
    + intros Hin. apply elem_of_app in Hin as [Hin|Hin]; [done|].
      apply list_elem_of_singleton in Hin. congruence.
    + apply NoDup_app. split; [exact Hnd|]. split; [|apply NoDup_singleton].
      intros a Ha Ha'. apply list_elem_of_singleton in Ha'. congruence.
  - rewrite length_app, Hlen. simpl. unfold BLOCK_COUNT. lia.
  - apply set_eq. intros a.
    rewrite !elem_of_union, !elem_of_list_to_set, elem_of_cons, elem_of_app,
      list_elem_of_singleton, !elem_of_singleton. tauto.
  - intros a Ha. apply elem_of_cons in Ha as [->|Ha]; [exact Hf0|].
    apply elem_of_app in Ha as [Ha|Ha].
    + by apply Hblksh.
    + apply list_elem_of_singleton in Ha. by subst a.
  - unfold block_store_destroy. cbn [slot_addrs]. rewrite Hlook.
    unfold bitmap_destroy_mem, free. by rewrite decide_False.
  - reflexivity.
Qed.

End MemoryFacts.

Section FreshBlocks.

(** X16: block_store_create does not clear the blocks and block_store_read
    does not look at the bitmap: on the store create returned, where no
    block is allocated, a read of any user block succeeds and delivers the
    bytes [malloc] left in that block. *)
Theorem read_fresh_block (heap : nat -> block) (id : Z) (buf : list byte) :
  0 <= id < BLOCK_COUNT - 1 ->
  exists s,
    block_store_create heap = Some s /\
    bitmap_test (bitmap s) id = false /\
    block_store_read (Some s) id (Some buf)
      = ReadDone BLOCK_SIZE (Some s) (Some (memcpy buf (heap (Z.to_nat id)) BLOCK_SIZE)).
Proof.
  intros Hid. destruct (create_returns heap) as (s & Hc & Hwf & _ & Hfree).
  exists s. split; [exact Hc|]. split; [apply Hfree; lia|].
  assert (Hblk : blocks s !! Z.to_nat id = Some (heap (Z.to_nat id))).
  { unfold block_store_create in Hc.
    destruct (bitmap_create BLOCK_COUNT) as [bm0|]; [|discriminate].
    apply (inj Some) in Hc. subst s. cbn [blocks].
    change (map heap (seq 0 (Z.to_nat (BLOCK_COUNT - 1))))
      with (heap <$> seq 0 (Z.to_nat (BLOCK_COUNT - 1))).
    rewrite list_lookup_fmap, lookup_seq_lt by lia. reflexivity. }
  unfold block_store_read, bs_slot.
  assert ((BLOCK_COUNT - 1 <? id) = false) as -> by lia.
  assert ((id =? BLOCK_COUNT - 1) = false) as -> by lia.
  rewrite Hblk. reflexivity.
Qed.

Lemma read_fresh_block_witness :
  exists s,
    block_store_create zero_heap = Some s /\
    block_store_read (Some s) 200 (Some (replicate 256 "255"%byte))
      = ReadDone 256 (Some s) (Some zero_block).
Proof.
  destruct (read_fresh_block zero_heap 200 (replicate 256 "255"%byte))
    as (s & Hc & _ & Hr); [unfold BLOCK_COUNT; lia|].
  exists s. split; [exact Hc | exact Hr].
Defined.

End FreshBlocks.

(** ** The reserved index as a block id *)

Section ReservedAsBlock.

Implicit Types (s : block_store_t) (bs : option block_store_t) (id : Z).

Lemma run_app (l1 l2 : list op) : forall s,
  run (l1 ++ l2) s = match run l1 s with Some s1 => run l2 s1 | None => None end.
Proof.
  induction l1 as [|o l1 IH]; intros s; simpl; [reflexivity|].
  destruct (step s o) as [s1|]; [apply IH | reflexivity].
Qed.

Lemma run_allocate_many (n : nat) : forall s xs s',
  allocate_many n (Some s) = (xs, Some s') ->
  run (repeat OpAllocate n) s = Some s'.
Proof.
  induction n as [|n IH]; intros s xs s' Hmany.
  - simpl in Hmany. by injection Hmany as _ <-.
  - cbn [allocate_many] in Hmany. cbn [repeat run step].
    destruct (block_store_allocate (Some s)) as [x bs1] eqn:Ha. cbn [snd].
    assert (exists s1, bs1 = Some s1) as [s1 ->].
    { unfold block_store_allocate in Ha.
      destruct (bitmap_ffz (bitmap s) =? SIZE_MAX); injection Ha as _ <-; eauto. }
    destruct (allocate_many n (Some s1)) as [xs' bs2] eqn:Hrec.
    injection Hmany as _ ->. by apply (IH s1 xs').
Qed.

(** C3, evaluated on the code: take the store block_store_create returned,
    allocate all [BLOCK_COUNT - 1] user blocks and release the reserved
    index [BLOCK_COUNT - 1], which block_store_release does not refuse.  The
    store reached has no free user block, yet block_store_allocate does not
    return [SIZE_MAX] and does not leave the store as it is: it returns
    [BLOCK_COUNT - 1], the slot that holds the bitmap, and sets its bit. *)
Theorem allocate_full_returns_reserved (heap : nat -> block) :
  exists s0 s1 s2 s3,
    block_store_create heap = Some s0 /\
    allocate_many (Z.to_nat (BLOCK_COUNT - 1)) (Some s0)
      = (seqZ 0 (BLOCK_COUNT - 1), Some s1) /\
    block_store_release (Some s1) (BLOCK_COUNT - 1) = Some s2 /\
    reachable s2 /\
    (forall k, 0 <= k < BLOCK_COUNT - 1 -> bitmap_test (bitmap s2) k = true) /\
    block_store_allocate (Some s2) = (BLOCK_COUNT - 1, Some s3) /\
    BLOCK_COUNT - 1 <> SIZE_MAX /\
    bitmap_test (bitmap s2) (BLOCK_COUNT - 1) = false /\
    bitmap_test (bitmap s3) (BLOCK_COUNT - 1) = true.
Proof.
  destruct (create_returns heap) as (s0 & Hc & _).
  pose proof (create_filled heap s0 Hc) as Hfill0.
  destruct (allocate_many_filled (Z.to_nat (BLOCK_COUNT - 1)) 0 s0 Hfill0)
    as (s1 & Hmany & [Hwf1 Hbits1]); [lia | unfold BLOCK_COUNT; lia |].
  replace (Z.of_nat (Z.to_nat (BLOCK_COUNT - 1))) with (BLOCK_COUNT - 1) in *
    by (unfold BLOCK_COUNT; lia).
  rewrite Z.add_0_l in Hbits1.
  set (s2 := {| blocks := blocks s1;
                bitmap := bitmap_reset (bitmap s1) (BLOCK_COUNT - 1) |}).
  assert (Hwf2 : wf_store s2) by (by apply wf_store_with_reset).
  pose proof Hwf2 as (_ & Hn2 & _).
  assert (Huser : forall k, 0 <= k < BLOCK_COUNT - 1 -> bitmap_test (bitmap s2) k = true).
  { intros k Hk. unfold s2. cbn [bitmap]. rewrite test_reset_ne by lia.
    rewrite Hbits1 by lia. lia. }
  assert (Hres : bitmap_test (bitmap s2) (BLOCK_COUNT - 1) = false).
  { unfold s2. cbn [bitmap]. apply test_reset_eq. }
  assert (Hffz : bitmap_ffz (bitmap s2) = BLOCK_COUNT - 1).
  { destruct (ffz_lowest (bitmap s2) (BLOCK_COUNT - 1)) as (Hr & Hc2 & _);
      [rewrite Hn2; unfold BLOCK_COUNT; lia | exact Hres |].
    destruct (decide (bitmap_ffz (bitmap s2) = BLOCK_COUNT - 1)) as [|Hne]; [done|].
    rewrite Huser in Hc2 by lia. discriminate. }
  exists s0, s1, s2. eexists.
  split; [exact Hc|]. split; [exact Hmany|]. split; [reflexivity|].
  split; [|split; [exact Huser|split; [|split; [|split; [exact Hres|]]]]].
  - exists heap, s0, (repeat OpAllocate (Z.to_nat (BLOCK_COUNT - 1))
                       ++ [OpRelease (BLOCK_COUNT - 1)]).
    split; [exact Hc|]. rewrite run_app, (run_allocate_many _ _ _ _ Hmany).
    reflexivity.
  - unfold block_store_allocate. rewrite Hffz.
    assert ((BLOCK_COUNT - 1 =? SIZE_MAX) = false) as -> by reflexivity.
    reflexivity.
  - discriminate.
  - cbn [bitmap]. apply test_set_eq; [by apply wf_store_bitmap|].
    rewrite Hn2. unfold BLOCK_COUNT. lia.
Qed.

(** C6, evaluated on the code: the guard of block_store_request is
    [block_id > BLOCK_COUNT - 1], which lets the reserved index
    [BLOCK_COUNT - 1] through although it is no user block id.  On the store
    reached from block_store_create by releasing the reserved index, a
    request for [BLOCK_COUNT - 1] returns true and sets the reserved bit,
    where an id outside the user range should give false and no change. *)
Theorem request_takes_reserved_slot (heap : nat -> block) :
  exists s0 s1 s2,
    block_store_create heap = Some s0 /\
    block_store_release (Some s0) (BLOCK_COUNT - 1) = Some s1 /\
    reachable s1 /\
    block_store_request (Some s1) (BLOCK_COUNT - 1) = (true, Some s2) /\
    bitmap_test (bitmap s1) (BLOCK_COUNT - 1) = false /\
    bitmap_test (bitmap s2) (BLOCK_COUNT - 1) = true.
Proof.
  destruct (create_returns heap) as (s0 & Hc & Hwf0 & _).
  set (s1 := {| blocks := blocks s0;
                bitmap := bitmap_reset (bitmap s0) (BLOCK_COUNT - 1) |}).
  assert (Hwf1 : wf_store s1) by (by apply wf_store_with_reset).
  pose proof Hwf1 as (_ & Hn1 & _).
  assert (Hres : bitmap_test (bitmap s1) (BLOCK_COUNT - 1) = false).
  { unfold s1. cbn [bitmap]. apply test_reset_eq. }
  exists s0, s1. eexists.
  split; [exact Hc|]. split; [reflexivity|].
  split; [|split; [|split; [exact Hres|]]].
  - exists heap, s0, [OpRelease (BLOCK_COUNT - 1)]. split; [exact Hc | reflexivity].
  - unfold block_store_request.
    assert ((BLOCK_COUNT - 1 <? BLOCK_COUNT - 1) = false) as -> by reflexivity.
    rewrite Hres. reflexivity.
  - cbn [bitmap]. apply test_set_eq; [by apply wf_store_bitmap|].
    rewrite Hn1. unfold BLOCK_COUNT. lia.
Qed.

End ReservedAsBlock.
